(** * The framework-agnostic starter scaffolder

    A shallow embedding of
    [packages/cli-tool/src/services/starter-template/FrameworkAgnosticStarter.ts]:
    the manifest merge [createUniversalPackageJson] and the eight operations
    that write fixed files.

    JavaScript objects are finite maps from property names to values (the
    order of the properties is not kept), the file system is a finite map
    from paths to nodes, and every operation is a
    computation over the file system and the logger's output that either
    returns or throws.

    The functions of [fs-extra] and [path] are taken by their contracts:
    [writeJSON] leaves a file that holds the document it was given as
    [JSON.stringify] writes it, [readJSON] returns the document a file
    holds, [writeFile] and [ensureDir] fail where the file system refuses
    them, and [path.join] appends segments to a path. *)

From stdpp Require Import gmap strings list fin_maps pretty.

(** ** JSON documents *)

(** A JSON number as JavaScript holds it once parsed: zero, a non-zero
    finite double [(-1)^neg * m * 2^e], or an infinity, which is what a
    literal beyond the range of a double such as [1e400] is read as.  The
    merge only ever asks whether a number is zero. *)
Inductive number :=
| NumZero
| NumFinite (neg : bool) (m : positive) (e : Z)
| NumInfinity (neg : bool).

(** The values [fs.readJSON] can return.  An object is kept as the finite map
    of its own properties ([PackageJson] is [Record<string, any>]). *)
#[warnings="-register-all"]
Inductive json :=
| JNull
| JBool (b : bool)
| JNum (x : number)
| JStr (s : string)
| JArr (l : list json)
| JObj (m : gmap string json).

(** The document [JSON.stringify] writes for a value: an infinity is written
    as [null], wherever it occurs, and everything else as it is. *)
Fixpoint serialise (v : json) : json :=
  match v with
  | JNum (NumInfinity _) => JNull
  | JArr l => JArr (serialise <$> l)
  | JObj m => JObj (serialise <$> m)
  | _ => v
  end.

(** The double-quote character, for string constants that contain it. *)
Definition dq : string := String (Ascii.ascii_of_nat 34) "".

(** ** The JavaScript operators the merge is written with *)

(** [ToBoolean]: [null], [false], [0] and the empty string are falsy, every
    other JSON value (arrays and objects included) is truthy. *)
Definition truthy (v : json) : bool :=
  match v with
  | JNull => false
  | JBool b => b
  | JNum NumZero => false
  | JNum (NumFinite _ _ _) => true
  | JNum (NumInfinity _) => true
  | JStr s => negb (bool_decide (s = ""))
  | JArr _ => true
  | JObj _ => true
  end.

(** Errors an operation can throw. *)
Inductive error :=
| TypeError
| SyntaxError
| ENOENT
| EISDIR
| ENOTDIR
| EEXIST.

(** A computation that returns or throws. *)
Definition result (A : Type) : Type := error + A.

#[global] Instance result_ret : MRet result := λ A x, inr x.
#[global] Instance result_bind : MBind result := λ A B f x,
  match x with
  | inl e => inl e
  | inr a => f a
  end.

(** [v[k]] on a value that is not [null], for the property names this module
    reads ([name], [version], [private], [type], [scripts], [dependencies],
    [devDependencies], [dev] and the five package names): an object answers
    with its own property, and neither a primitive, an array nor a prototype
    has a property of one of these names.  [None] is [undefined]. *)
Definition get (v : json) (k : string) : option json :=
  match v with
  | JObj m => m !! k
  | _ => None
  end.

(** [v.k]: reading a property of [null] throws a [TypeError]. *)
Definition member (v : json) (k : string) : result (option json) :=
  match v with
  | JNull => inl TypeError
  | _ => inr (get v k)
  end.

(** [v?.k]: [undefined] when [v] is [undefined] or [null]. *)
Definition opt_member (v : option json) (k : string) : option json :=
  match v with
  | None | Some JNull => None
  | Some w => get w k
  end.

(** [a || b]. *)
Definition js_or (a : option json) (b : json) : json :=
  match a with
  | Some v => if truthy v then v else b
  | None => b
  end.

(** [a ?? b]. *)
Definition js_nullish (a : option json) (b : json) : json :=
  match a with
  | None | Some JNull => b
  | Some v => v
  end.

(** The properties [...v] copies into an object literal: the own properties
    of an object, the elements of an array and the characters of a string
    under their indices, and nothing for [undefined], [null], a boolean or a
    number.  A string is spread by the characters of its representation
    here, which are those of JavaScript for ASCII text only. *)
Definition spread (v : option json) : gmap string json :=
  match v with
  | Some (JObj m) => m
  | Some (JArr l) => list_to_map (imap (λ i x, (pretty i, x)) l)
  | Some (JStr s) =>
      list_to_map
        (imap (λ i c, (pretty i, JStr (String c ""))) (String.list_ascii_of_string s))
  | _ => ∅
  end.

(** An object literal [{...base, k1: v1, ..., kn: vn}]: the properties are
    set from left to right, a later one replacing an earlier one of the same
    name. *)
Definition object_literal (base : gmap string json)
    (props : list (string * json)) : gmap string json :=
  foldl (λ m kv, <[kv.1 := kv.2]> m) base props.

(** ** The manifest the merge builds *)

(** The three nested object literals of [starterPkg], as functions of the
    values of [pkg.scripts], [pkg.dependencies] and [pkg.devDependencies]. *)
Definition starter_scripts (scripts : option json) : gmap string json :=
  object_literal (spread scripts) [
    ("dev", js_or (opt_member scripts "dev")
       (JStr ("echo " +:+ dq +:+
              "Plug your preferred framework dev server here (e.g. vite dev)" +:+ dq)));
    ("typecheck", JStr "tsc --noEmit");
    ("build:css",
       JStr "tailwindcss -i ./src/styles/index.css -o ./dist/styles.css --minify");
    ("build", JStr "npm run typecheck && npm run build:css");
    ("lint", JStr ("eslint " +:+ dq +:+ "src/**/*.{ts,tsx}" +:+ dq +:+ " --max-warnings=0"));
    ("format", JStr ("prettier --write " +:+ dq +:+ "src/**/*.{ts,tsx,css,md}" +:+ dq))
  ].

Definition starter_dependencies (dependencies : option json) : gmap string json :=
  object_literal (spread (Some (js_or dependencies (JObj ∅)))) [
    ("react", js_or (opt_member dependencies "react") (JStr "^18.3.1"));
    ("react-dom", js_or (opt_member dependencies "react-dom") (JStr "^18.3.1"));
    ("@mindfiredigital/ignix-ui",
       js_or (opt_member dependencies "@mindfiredigital/ignix-ui") (JStr "^1.0.5"));
    ("clsx", js_or (opt_member dependencies "clsx") (JStr "^2.1.1"));
    ("tailwind-merge", js_or (opt_member dependencies "tailwind-merge") (JStr "^3.0.2"))
  ].

Definition starter_devDependencies (devDependencies : option json) : gmap string json :=
  object_literal (spread (Some (js_or devDependencies (JObj ∅)))) [
    ("typescript", JStr "^5.6.2");
    ("@types/react", JStr "^18.3.5");
    ("@types/react-dom", JStr "^18.3.0");
    ("tailwindcss", JStr "^3.4.14");
    ("postcss", JStr "^8.4.41");
    ("autoprefixer", JStr "^10.4.20");
    ("eslint", JStr "^9.11.1");
    ("@typescript-eslint/parser", JStr "^8.7.0");
    ("@typescript-eslint/eslint-plugin", JStr "^8.7.0");
    ("prettier", JStr "^3.3.3");
    ("prettier-plugin-tailwindcss", JStr "^0.6.6")
  ].

(** The object literal [starterPkg] of [createUniversalPackageJson], given
    the values of the seven properties of [pkg] it reads. *)
Definition starter_literal
    (name version private type scripts dependencies devDependencies : option json) : json :=
  JObj (object_literal ∅ [
    ("name", js_or name (JStr "ignix-universal-app"));
    ("version", js_or version (JStr "0.1.0"));
    ("private", js_nullish private (JBool true));
    ("type", js_or type (JStr "module"));
    ("scripts", JObj (starter_scripts scripts));
    ("dependencies", JObj (starter_dependencies dependencies));
    ("devDependencies", JObj (starter_devDependencies devDependencies))
  ]).

(** [starterPkg] as a function of the value [pkg] read from the existing
    [package.json]: the properties are read in the order of the literal, and
    the first read throws when [pkg] is [null]. *)
Definition starterPkg (pkg : json) : result json :=
  name ← member pkg "name";
  version ← member pkg "version";
  private ← member pkg "private";
  type ← member pkg "type";
  scripts ← member pkg "scripts";
  dependencies ← member pkg "dependencies";
  devDependencies ← member pkg "devDependencies";
  mret (starter_literal name version private type scripts dependencies devDependencies).

(** [doc.field.key], read without throwing; [None] when either property is
    absent. *)
Definition nested (doc : json) (field key : string) : option json :=
  get doc field ≫= λ v, get v key.

(** ** The file system and the logger *)

(** A path is the list of its segments, innermost first: the parent
    directory of a path is its tail. *)
Abbreviation path := (list string).

(** [path.join(root, s1, ..., sn)]. *)
Definition join (root : path) (segments : list string) : path :=
  rev segments ++ root.

(** What a regular file holds, as far as [fs.readJSON] can tell: a JSON
    document, or text that does not parse as one. *)
Inductive content :=
| Doc (d : json)
| Text (s : string).

Inductive node :=
| Dir
| File (c : content).

(** Modelled from the spec: the logger of [utils/logger] is a sink with the
    severities [info] and [warn]; it keeps what it was given, in order. *)
Inductive level :=
| Info
| Warn.

Record state := State {
  files : gmap path node;
  log : list (level * string)
}.

(** An asynchronous operation: it runs on a state and returns or throws,
    leaving the state it reached. *)
Definition io (A : Type) : Type := state → result A * state.

#[global] Instance io_ret : MRet io := λ A x s, (inr x, s).
#[global] Instance io_bind : MBind io := λ A B f m s,
  match m s with
  | (inl e, s') => (inl e, s')
  | (inr a, s') => f a s'
  end.

(** [try { body } catch { handler }]. *)
Definition try_catch {A} (body handler : io A) : io A := λ s,
  match body s with
  | (inl _, s') => handler s'
  | r => r
  end.

Definition lift {A} (r : result A) : io A := λ s, (r, s).

(** Modelled from the spec: [logger.info] and [logger.warn] of
    [utils/logger] record the message under their severity and return. *)
Definition logger_info (msg : string) : io unit := λ s,
  (inr (), State (files s) (log s ++ [(Info, msg)])).

Definition logger_warn (msg : string) : io unit := λ s,
  (inr (), State (files s) (log s ++ [(Warn, msg)])).

(** [fs.pathExists]: anything at the path, file or directory. *)
Definition pathExists (p : path) : io bool := λ s,
  (inr (bool_decide (is_Some (files s !! p))), s).

(** [fs.readJSON]: the document of a file that holds one. *)
Definition readJSON (p : path) : io json := λ s,
  match files s !! p with
  | Some (File (Doc d)) => (inr d, s)
  | Some (File (Text _)) => (inl SyntaxError, s)
  | Some Dir => (inl EISDIR, s)
  | None => (inl ENOENT, s)
  end.

(** Whether a regular file lies at [p] or above it. *)
Fixpoint file_on_the_way (p : path) (fs : gmap path node) : bool :=
  match fs !! p with
  | Some (File _) => true
  | _ =>
      match p with
      | [] => false
      | _ :: parent => file_on_the_way parent fs
      end
  end.

(** Creating or replacing a regular file: the path must not be a directory
    and its parent must be one.  When the parent is not there, the error is
    [ENOTDIR] if a regular file lies on the way to it and [ENOENT] if a
    directory is merely missing. *)
Definition write (p : path) (c : content) : io unit := λ s,
  match files s !! p with
  | Some Dir => (inl EISDIR, s)
  | _ =>
      match files s !! tail p with
      | Some Dir => (inr (), State (<[p := File c]> (files s)) (log s))
      | Some (File _) => (inl ENOTDIR, s)
      | None =>
          (inl (if file_on_the_way (tail p) (files s) then ENOTDIR else ENOENT), s)
      end
  end.

(** [fs.writeJSON(p, d, { spaces: 2 })]: the file holds the document [d] as
    [JSON.stringify] writes it. *)
Definition writeJSON (p : path) (d : json) : io unit := write p (Doc (serialise d)).

(** [fs.writeFile(p, text)]. *)
Definition writeFile (p : path) (text : string) : io unit := write p (Text text).

(** [mkdir -p]: the directory and the ancestors that are missing are made; a
    regular file in the way is an error. *)
Fixpoint mkdirs (p : path) (fs : gmap path node) : result (gmap path node) :=
  match fs !! p with
  | Some Dir => inr fs
  | Some (File _) => inl EEXIST
  | None =>
      match p with
      | [] => inr (<[p := Dir]> fs)
      | _ :: parent =>
          match mkdirs parent fs with
          | inr fs' => inr (<[p := Dir]> fs')
          | inl _ => inl ENOTDIR
          end
      end
  end.

(** [fs.ensureDir]. *)
Definition ensureDir (p : path) : io unit := λ s,
  match mkdirs p (files s) with
  | inr fs' => (inr (), State fs' (log s))
  | inl e => (inl e, s)
  end.

(** ** The fixed documents and texts *)

(** An array of strings. *)
Definition strings (l : list string) : json := JArr (JStr <$> l).

(** The object [tsconfig] of [createUniversalTsconfig]. *)
Definition tsconfig : json :=
  JObj (object_literal ∅ [
    ("compilerOptions", JObj (object_literal ∅ [
      ("target", JStr "ES2020");
      ("lib", strings ["DOM"; "DOM.Iterable"; "ES2020"]);
      ("module", JStr "ESNext");
      ("moduleResolution", JStr "Bundler");
      ("strict", JBool true);
      ("noEmit", JBool true);
      ("skipLibCheck", JBool false);
      ("forceConsistentCasingInFileNames", JBool true);
      ("esModuleInterop", JBool true);
      ("resolveJsonModule", JBool true);
      ("jsx", JStr "react-jsx");
      ("baseUrl", JStr ".");
      ("paths", JObj (object_literal ∅ [("@/*", strings ["src/*"])]))
    ]));
    ("include", strings ["src"]);
    ("exclude", strings ["node_modules"; "dist"])
  ]).

(** The object [eslintConfig] of [createUniversalEslintConfig]. *)
Definition eslintConfig : json :=
  JObj (object_literal ∅ [
    ("env", JObj (object_literal ∅ [
      ("browser", JBool true);
      ("es2022", JBool true)
    ]));
    ("parser", JStr "@typescript-eslint/parser");
    ("parserOptions", JObj (object_literal ∅ [
      ("ecmaVersion", JStr "latest");
      ("sourceType", JStr "module");
      ("ecmaFeatures", JObj (object_literal ∅ [("jsx", JBool true)]))
    ]));
    ("plugins", strings ["@typescript-eslint"]);
    ("extends", strings ["eslint:recommended"; "plugin:@typescript-eslint/recommended"]);
    ("ignorePatterns", strings ["dist"; "node_modules"]);
    ("rules", JObj (object_literal ∅ [
      ("@typescript-eslint/no-unused-vars", JArr [
        JStr "warn";
        JObj (object_literal ∅ [
          ("argsIgnorePattern", JStr "^_");
          ("varsIgnorePattern", JStr "^_")
        ])
      ])
    ]))
  ]).

(** The text of [tailwind.config.js] (the template literal [config]). *)
Definition tailwind_config : string :=
  "/** @type {import('tailwindcss').Config} */
module.exports = {
  darkMode: ['class', '[data-theme=" +:+ dq +:+ "dark" +:+ dq +:+ "]'],
  content: [
    './src/components/**/*.{ts,tsx,js,jsx}',
    './src/pages/**/*.{ts,tsx,js,jsx}',
    './node_modules/@mindfiredigital/ignix-ui/**/*.{js,ts,jsx,tsx}',
  ],
  theme: {
    extend: {
      colors: {
        background: 'var(--background)',
        foreground: 'var(--foreground)',
        primary: {
          DEFAULT: 'var(--primary)',
          foreground: 'var(--primary-foreground)',
        },
        secondary: {
          DEFAULT: 'var(--secondary)',
          foreground: 'var(--secondary-foreground)',
        },
        muted: {
          DEFAULT: 'var(--muted)',
          foreground: 'var(--muted-foreground)',
        },
        accent: {
          DEFAULT: 'var(--accent)',
          foreground: 'var(--accent-foreground)',
        },
        border: 'var(--border)',
        input: 'var(--input)',
        ring: 'var(--ring)',
      },
    },
  },
  plugins: [],
};
".

(** The text of [postcss.config.js] (the template literal [contents]). *)
Definition postcss_contents : string :=
  "module.exports = {
  plugins: {
    tailwindcss: {},
    autoprefixer: {},
  },
};
".

(** The text of [ignix.config.js]. *)
Definition ignixConfig : string :=
  "/* eslint-env node */
/** @type {import('@mindfiredigital/ignix-cli').IgnixConfig} */
module.exports = {
  registryUrl:
    'https://raw.githubusercontent.com/mindfiredigital/ignix-ui/main/packages/registry/registry.json',
  themeUrl:
    'https://raw.githubusercontent.com/mindfiredigital/ignix-ui/main/packages/registry/themes.json',
  componentsDir: 'src/components',
  themesDir: 'src/styles/themes',
};
".

(** The example component written to [src/components/UiShell.tsx]. *)
Definition uiShell : string :=
  "import { Button, Card } from '@mindfiredigital/ignix-ui';

export function UiShell() {
  return (
    <section className=" +:+ dq +:+ "space-y-6 rounded-2xl border border-border bg-background/80 p-8 shadow-sm backdrop-blur" +:+ dq +:+ ">
      <header>
        <p className=" +:+ dq +:+ "text-sm uppercase tracking-widest text-muted-foreground" +:+ dq +:+ ">Ignix UI</p>
        <h1 className=" +:+ dq +:+ "text-3xl font-semibold" +:+ dq +:+ ">Framework-agnostic starter</h1>
        <p className=" +:+ dq +:+ "mt-2 text-base text-muted-foreground" +:+ dq +:+ ">
          Compose Tailwind primitives, strict TypeScript types, and Ignix UI components in any React
          runtime: Next.js, Remix, Vite, Expo Router for web, or custom design systems.
        </p>
      </header>
      <Card className=" +:+ dq +:+ "space-y-4 p-6" +:+ dq +:+ ">
        <div>
          <h2 className=" +:+ dq +:+ "text-lg font-medium" +:+ dq +:+ ">Drop-in ready</h2>
          <p className=" +:+ dq +:+ "text-sm text-muted-foreground" +:+ dq +:+ ">
            Add your preferred router and renderer, wire the exported pages, and keep this starter as
            a shared UI workspace.
          </p>
        </div>
        <Button size=" +:+ dq +:+ "lg" +:+ dq +:+ " className=" +:+ dq +:+ "w-full sm:w-auto" +:+ dq +:+ ">
          Start shipping
        </Button>
      </Card>
    </section>
  );
}
".

(** The example page written to [src/pages/index.tsx]. *)
Definition pageContent : string :=
  "import { UiShell } from '../components/UiShell';

export function HomePage() {
  return (
    <main className=" +:+ dq +:+ "min-h-screen bg-gradient-to-b from-background via-background to-muted px-4 py-16" +:+ dq +:+ ">
      <div className=" +:+ dq +:+ "mx-auto flex w-full max-w-4xl flex-col gap-4 text-foreground" +:+ dq +:+ ">
        <UiShell />
        <section className=" +:+ dq +:+ "rounded-2xl border border-dashed border-border p-6 text-sm text-muted-foreground" +:+ dq +:+ ">
          <p className=" +:+ dq +:+ "font-medium text-foreground" +:+ dq +:+ ">Plug me anywhere</p>
          <ul className=" +:+ dq +:+ "list-inside list-disc space-y-2 pt-2" +:+ dq +:+ ">
            <li>Next.js / Remix / Expo Router: import the components into your route files</li>
            <li>Vite / Rspack / Webpack: mount `HomePage` in your entry point</li>
            <li>Design systems: re-export `UiShell` from a shared package</li>
          </ul>
        </section>
      </div>
    </main>
  );
}

export default HomePage;
".

(** The global stylesheet written to [src/styles/index.css]. *)
Definition styles : string :=
  "@tailwind base;
@tailwind components;
@tailwind utilities;

:root {
  --background: 0 0% 100%;
  --foreground: 224 71% 4%;
  --primary: 222.2 47.4% 11.2%;
  --primary-foreground: 210 40% 98%;
  --secondary: 210 40% 96.1%;
  --secondary-foreground: 222.2 47.4% 11.2%;
  --muted: 210 40% 96.1%;
  --muted-foreground: 215.4 16.3% 46.9%;
  --accent: 210 40% 96.1%;
  --accent-foreground: 222.2 47.4% 11.2%;
  --border: 214.3 31.8% 91.4%;
  --input: 214.3 31.8% 91.4%;
  --ring: 222.2 84% 4.9%;
}

.dark {
  --background: 222.2 84% 4.9%;
  --foreground: 210 40% 98%;
  --primary: 210 40% 98%;
  --primary-foreground: 222.2 47.4% 11.2%;
  --secondary: 217.2 32.6% 17.5%;
  --secondary-foreground: 210 40% 98%;
  --muted: 217.2 32.6% 17.5%;
  --muted-foreground: 215 20.2% 65.1%;
  --accent: 217.2 32.6% 17.5%;
  --accent-foreground: 210 40% 98%;
  --border: 217.2 32.6% 17.5%;
  --input: 217.2 32.6% 17.5%;
  --ring: 212.7 26.8% 83.9%;
}

body {
  @apply bg-background text-foreground antialiased;
}
".

(** The text of [.gitignore] (the template literal [contents]). *)
Definition gitignore_contents : string :=
  "node_modules
dist
.turbo
.next
.vercel
.cache
.env
.env.*
*.log
*.lock
.DS_Store
".

(** The text of [README.md]. *)
Definition readme : string :=
  "# Ignix UI Universal Starter

A framework-agnostic React + TypeScript + Tailwind starter wired for Ignix UI. Drop these folders into any framework (Next.js, Remix, Gatsby, Vite, Expo Router for web) or keep them in a standalone UI workspace.

## What's inside

- ✅ Strict TypeScript configuration with sensible aliases
- ✅ Tailwind CSS v3+ with design tokens that mirror Ignix UI defaults
- ✅ Ready-to-import Ignix UI component examples (`UiShell`, `HomePage`)
- ✅ Opinionated folder structure:
  - `src/components` for reusable UI
  - `src/pages` for route-level views
  - `src/styles` for global and theme styles
- ✅ Build hints for CSS + type-check pipelines

## Scripts

- `npm run dev` – attach your framework runner (defaults to a placeholder echo)
- `npm run typecheck` – zero-emission strict TypeScript check
- `npm run build:css` – compiles Tailwind to `dist/styles.css`
- `npm run build` – runs both to keep CI happy
- `npm run lint` / `npm run format` – optional quality gates

## Hook it into your framework

1. Copy `src/components`, `src/pages`, and `src/styles` into your app (or keep this repo dedicated to UI).
2. Ensure your bundler resolves `@/*` to `src/*` (Next.js, Remix, Vite already do).
3. Import `HomePage` from `src/pages/index.tsx` wherever your framework expects a view component.
4. Keep Tailwind running:

   ```bash
   npm install
   npm run build:css # or tailwindcss -w for watch mode
   ```

## Ignix CLI integration

- Add more components: `npx ignix add <component-name>`
- Browse starters: `npx ignix starters`
- Manage themes: `npx ignix themes list`

## Next steps

1. Initialize git: `git init && git add . && git commit -m " +:+ dq +:+ "init ignix universal starter" +:+ dq +:+ "`
2. Wire the exported components into your chosen framework.
3. Deploy with the tooling you already use (Vercel, Netlify, Render, Docker, etc.).

Happy shipping! 🚀
".

(** ** The operations *)

(** [createUniversalPackageJson]: read the existing manifest if there is
    one, build [starterPkg] from it and write it back. *)
Definition createUniversalPackageJson (root : path) : io unit :=
  let pkgPath := join root ["package.json"] in
  found ← pathExists pkgPath;
  pkg ← (if found : bool then
           try_catch
             (read ← readJSON pkgPath;
              _ ← logger_info
                "Existing package.json found – merging starter scripts and dependencies.";
              mret read)
             (_ ← logger_warn "Unable to parse package.json, generating a fresh one.";
              mret (JObj ∅))
         else mret (JObj ∅));
  starter ← lift (starterPkg pkg);
  writeJSON pkgPath starter.

Definition createUniversalTsconfig (root : path) : io unit :=
  writeJSON (join root ["tsconfig.json"]) tsconfig.

Definition createUniversalTailwindConfig (root : path) : io unit :=
  writeFile (join root ["tailwind.config.js"]) tailwind_config.

Definition createUniversalPostCSSConfig (root : path) : io unit :=
  writeFile (join root ["postcss.config.js"]) postcss_contents.

Definition createUniversalEslintConfig (root : path) : io unit :=
  writeJSON (join root [".eslintrc.json"]) eslintConfig.

Definition createUniversalIgnixConfig (root : path) : io unit :=
  writeFile (join root ["ignix.config.js"]) ignixConfig.

(** [createUniversalSrcStructure]: four directories, then the three example
    sources. *)
Definition createUniversalSrcStructure (root : path) : io unit :=
  let componentsDir := join root ["src"; "components"] in
  let pagesDir := join root ["src"; "pages"] in
  let stylesDir := join root ["src"; "styles"] in
  _ ← ensureDir componentsDir;
  _ ← ensureDir pagesDir;
  _ ← ensureDir stylesDir;
  _ ← ensureDir (join root ["dist"]);
  _ ← writeFile (join componentsDir ["UiShell.tsx"]) uiShell;
  _ ← writeFile (join pagesDir ["index.tsx"]) pageContent;
  writeFile (join stylesDir ["index.css"]) styles.

Definition createUniversalGitignore (root : path) : io unit :=
  writeFile (join root [".gitignore"]) gitignore_contents.

Definition createUniversalReadme (root : path) : io unit :=
  writeFile (join root ["README.md"]) readme.

(** The operations of the module, and the one each name stands for. *)
Inductive operation :=
| PackageJson
| Tsconfig
| TailwindConfig
| PostCSSConfig
| EslintConfig
| IgnixConfig
| SrcStructure
| Gitignore
| Readme.

Definition run_operation (o : operation) : path → io unit :=
  match o with
  | PackageJson => createUniversalPackageJson
  | Tsconfig => createUniversalTsconfig
  | TailwindConfig => createUniversalTailwindConfig
  | PostCSSConfig => createUniversalPostCSSConfig
  | EslintConfig => createUniversalEslintConfig
  | IgnixConfig => createUniversalIgnixConfig
  | SrcStructure => createUniversalSrcStructure
  | Gitignore => createUniversalGitignore
  | Readme => createUniversalReadme
  end.

(** All nine, in the order the module declares them. *)
Definition operations : list operation :=
  [PackageJson; Tsconfig; TailwindConfig; PostCSSConfig; EslintConfig; IgnixConfig;
   SrcStructure; Gitignore; Readme].

(** The eight that write fixed content. *)
Definition static_emitters : list operation :=
  [Tsconfig; TailwindConfig; PostCSSConfig; EslintConfig; IgnixConfig;
   SrcStructure; Gitignore; Readme].

(** Awaiting a list of operations one after the other; the first that throws
    ends the run. *)
Fixpoint run_all (ms : list (io unit)) : io unit :=
  match ms with
  | [] => mret ()
  | m :: rest => _ ← m; run_all rest
  end.

(** * The vocabulary of the statements *)

(** ** The merged manifest *)

(** The seven properties of the manifest the merge writes. *)
Definition top_level_fields : list string :=
  ["name"; "version"; "private"; "type"; "scripts"; "dependencies"; "devDependencies"].

(** The scripts the merge sets whatever the existing manifest says. *)
Definition fixed_scripts : list string :=
  ["typecheck"; "build:css"; "build"; "lint"; "format"].

(** The packages whose existing range the merge asks for before it falls
    back to its own. *)
Definition guarded_dependencies : list string :=
  ["react"; "react-dom"; "@mindfiredigital/ignix-ui"; "clsx"; "tailwind-merge"].

(** The development packages the merge sets whatever the existing manifest
    says. *)
Definition fixed_devDependencies : list string :=
  ["typescript"; "@types/react"; "@types/react-dom"; "tailwindcss"; "postcss";
   "autoprefixer"; "eslint"; "@typescript-eslint/parser";
   "@typescript-eslint/eslint-plugin"; "prettier"; "prettier-plugin-tailwindcss"].

(** When an entry of a nested mapping of the existing manifest is sure to
    survive the merge: in [scripts], [dev] when its value is truthy and every
    name the merge does not set itself; in [dependencies], a guarded package
    when its range is truthy and every other package; in [devDependencies],
    every package the merge does not set itself. *)
Definition survives (field k : string) (v : json) : Prop :=
  (field = "scripts" ∧ (k ∉ fixed_scripts) ∧ (k = "dev" → truthy v = true)) ∨
  (field = "dependencies" ∧ (k ∈ guarded_dependencies → truthy v = true)) ∨
  (field = "devDependencies" ∧ (k ∉ fixed_devDependencies)).

(** The script the starter gives [dev] when the manifest has none. *)
Definition default_dev : string :=
  "echo " +:+ dq +:+ "Plug your preferred framework dev server here (e.g. vite dev)" +:+ dq.

(** The document the merge writes when it starts from nothing. *)
Definition default_manifest : json :=
  JObj (list_to_map [
    ("name", JStr "ignix-universal-app");
    ("version", JStr "0.1.0");
    ("private", JBool true);
    ("type", JStr "module");
    ("scripts", JObj (list_to_map [
      ("dev", JStr default_dev);
      ("typecheck", JStr "tsc --noEmit");
      ("build:css",
         JStr "tailwindcss -i ./src/styles/index.css -o ./dist/styles.css --minify");
      ("build", JStr "npm run typecheck && npm run build:css");
      ("lint", JStr ("eslint " +:+ dq +:+ "src/**/*.{ts,tsx}" +:+ dq +:+ " --max-warnings=0"));
      ("format", JStr ("prettier --write " +:+ dq +:+ "src/**/*.{ts,tsx,css,md}" +:+ dq))
    ]));
    ("dependencies", JObj (list_to_map [
      ("react", JStr "^18.3.1");
      ("react-dom", JStr "^18.3.1");
      ("@mindfiredigital/ignix-ui", JStr "^1.0.5");
      ("clsx", JStr "^2.1.1");
      ("tailwind-merge", JStr "^3.0.2")
    ]));
    ("devDependencies", JObj (list_to_map [
      ("typescript", JStr "^5.6.2");
      ("@types/react", JStr "^18.3.5");
      ("@types/react-dom", JStr "^18.3.0");
      ("tailwindcss", JStr "^3.4.14");
      ("postcss", JStr "^8.4.41");
      ("autoprefixer", JStr "^10.4.20");
      ("eslint", JStr "^9.11.1");
      ("@typescript-eslint/parser", JStr "^8.7.0");
      ("@typescript-eslint/eslint-plugin", JStr "^8.7.0");
      ("prettier", JStr "^3.3.3");
      ("prettier-plugin-tailwindcss", JStr "^0.6.6")
    ]))
  ]).

(** A top-level field of the merged manifest is the existing value when there
    is one that passes [keep], and the default otherwise. *)
Definition scalar_rule (keep : json → bool) (existing : gmap string json)
    (out : json) (field : string) (default : json) : Prop :=
  get out field =
    Some (match existing !! field with
          | Some v => if keep v then v else default
          | None => default
          end).

(** The test of [??]: anything but [null]. *)
Definition not_null (v : json) : bool :=
  match v with
  | JNull => false
  | _ => true
  end.

(** The two lines the merge can log. *)
Definition found_message : string :=
  "Existing package.json found – merging starter scripts and dependencies.".

Definition unparsable_message : string :=
  "Unable to parse package.json, generating a fresh one.".

(** ** Running an operation again *)

(** An operation is settled in a state when running it there returns and
    changes nothing. *)
Definition settled (m : io unit) (s : state) : Prop := m s = (inr (), s).

(** It is steady when a run that returns leaves it settled and a run that
    throws leaves the state as it was. *)
Record steady (m : io unit) : Prop := Steady {
  steady_ok : ∀ s s', m s = (inr (), s') → settled m s';
  steady_err : ∀ s e s', m s = (inl e, s') → s' = s
}.

(** [m'] keeps [m] settled. *)
Definition keeps (m' m : io unit) : Prop :=
  ∀ s r s', settled m s → m' s = (r, s') → settled m s'.

(** The two kinds of step a static emitter is made of. *)
Inductive action :=
| Write (p : path) (c : content)
| EnsureDir (p : path).

Definition perform (a : action) : io unit :=
  match a with
  | Write p c => write p c
  | EnsureDir p => ensureDir p
  end.

(** Two steps agree unless they write different content to one path. *)
Definition agree (a b : action) : Prop :=
  match a, b with
  | Write p c, Write q c' => p = q → c = c'
  | _, _ => True
  end.

(** The steps of an operation that writes fixed content; the merge is not
    one and has none. *)
Definition static_steps (o : operation) (root : path) : list action :=
  match o with
  | PackageJson => []
  | Tsconfig => [Write (join root ["tsconfig.json"]) (Doc tsconfig)]
  | TailwindConfig => [Write (join root ["tailwind.config.js"]) (Text tailwind_config)]
  | PostCSSConfig => [Write (join root ["postcss.config.js"]) (Text postcss_contents)]
  | EslintConfig => [Write (join root [".eslintrc.json"]) (Doc eslintConfig)]
  | IgnixConfig => [Write (join root ["ignix.config.js"]) (Text ignixConfig)]
  | SrcStructure =>
      [EnsureDir (join root ["src"; "components"]);
       EnsureDir (join root ["src"; "pages"]);
       EnsureDir (join root ["src"; "styles"]);
       EnsureDir (join root ["dist"]);
       Write (join root ["src"; "components"; "UiShell.tsx"]) (Text uiShell);
       Write (join root ["src"; "pages"; "index.tsx"]) (Text pageContent);
       Write (join root ["src"; "styles"; "index.css"]) (Text styles)]
  | Gitignore => [Write (join root [".gitignore"]) (Text gitignore_contents)]
  | Readme => [Write (join root ["README.md"]) (Text readme)]
  end.

(** ** What a full run leaves below the root *)

(** The regular files a full run leaves, by their paths below the root. *)
Definition artifact_files : list (path * content) :=
  [(join [] ["package.json"], Doc default_manifest);
   (join [] ["tsconfig.json"], Doc tsconfig);
   (join [] ["tailwind.config.js"], Text tailwind_config);
   (join [] ["postcss.config.js"], Text postcss_contents);
   (join [] [".eslintrc.json"], Doc eslintConfig);
   (join [] ["ignix.config.js"], Text ignixConfig);
   (join [] ["src"; "components"; "UiShell.tsx"], Text uiShell);
   (join [] ["src"; "pages"; "index.tsx"], Text pageContent);
   (join [] ["src"; "styles"; "index.css"], Text styles);
   (join [] [".gitignore"], Text gitignore_contents);
   (join [] ["README.md"], Text readme)].

(** The directories it leaves: the four it asks for and their parent. *)
Definition artifact_directories : list path :=
  [join [] ["src"];
   join [] ["src"; "components"];
   join [] ["src"; "pages"];
   join [] ["src"; "styles"];
   join [] ["dist"]].

(** Both together, as the tree below the root. *)
Definition expected_tree : gmap path node :=
  list_to_map (((λ pc, (pc.1, File pc.2)) <$> artifact_files)
               ++ ((λ p, (p, Dir)) <$> artifact_directories)).

(** What each operation is there to create. *)
Definition creates (o : operation) : list path :=
  match o with
  | PackageJson => [join [] ["package.json"]]
  | Tsconfig => [join [] ["tsconfig.json"]]
  | TailwindConfig => [join [] ["tailwind.config.js"]]
  | PostCSSConfig => [join [] ["postcss.config.js"]]
  | EslintConfig => [join [] [".eslintrc.json"]]
  | IgnixConfig => [join [] ["ignix.config.js"]]
  | SrcStructure =>
      [join [] ["src"];
       join [] ["src"; "components"];
       join [] ["src"; "pages"];
       join [] ["src"; "styles"];
       join [] ["dist"];
       join [] ["src"; "components"; "UiShell.tsx"];
       join [] ["src"; "pages"; "index.tsx"];
       join [] ["src"; "styles"; "index.css"]]
  | Gitignore => [join [] [".gitignore"]]
  | Readme => [join [] ["README.md"]]
  end.

(** The state of the files while the operations run on a root that was
    empty: the root is a directory, whatever is below it is part of the
    expected tree and lies in a directory, and nothing outside the root has
    changed. *)
Record scaffolding (root : path) (fs0 fs : gmap path node) : Prop := Scaffolding {
  scaffolding_root : fs !! root = Some Dir;
  scaffolding_inside : ∀ rel,
    rel ≠ [] → fs !! (rel ++ root) = None ∨ fs !! (rel ++ root) = expected_tree !! rel;
  scaffolding_parent : ∀ x rel,
    is_Some (fs !! (x :: rel ++ root)) → fs !! (rel ++ root) = Some Dir;
  scaffolding_outside : ∀ p, ¬ root `suffix_of` p → fs !! p = fs0 !! p
}.

(** The directory [rel] and the directories above it, up to the root. *)
Fixpoint ancestors (rel : path) : list path :=
  match rel with
  | [] => []
  | _ :: parent => rel :: ancestors parent
  end.

(** The files and the four directories the specification lists. *)
Definition claimed_files : list path :=
  [join [] ["package.json"]; join [] ["tsconfig.json"]; join [] ["tailwind.config.js"];
   join [] ["postcss.config.js"]; join [] [".eslintrc.json"]; join [] ["ignix.config.js"];
   join [] ["src"; "components"; "UiShell.tsx"]; join [] ["src"; "pages"; "index.tsx"];
   join [] ["src"; "styles"; "index.css"]; join [] [".gitignore"]; join [] ["README.md"]].

Definition claimed_directories : list path :=
  [join [] ["src"; "components"]; join [] ["src"; "pages"]; join [] ["src"; "styles"];
   join [] ["dist"]].

(** A regular file, as opposed to a directory. *)
Definition is_file (n : node) : bool :=
  match n with
  | File _ => true
  | Dir => false
  end.

(** ** Further vocabulary *)

(** The three nested mappings of the manifest. *)
Definition nested_fields : list string := ["scripts"; "dependencies"; "devDependencies"].

(** The names the starter sets in each nested mapping. *)
Definition starter_names (field : string) : list string :=
  if decide (field = "scripts") then "dev" :: fixed_scripts
  else if decide (field = "dependencies") then guarded_dependencies
  else if decide (field = "devDependencies") then fixed_devDependencies
  else [].

(** A value of a nested field from which the merge takes no entry:
    [undefined], [null], a boolean or a number. *)
Definition no_properties (v : option json) : Prop :=
  match v with
  | None | Some JNull | Some (JBool _) | Some (JNum _) => True
  | _ => False
  end.

(** A document that is neither an object nor [null]. *)
Definition primitive_or_array (d : json) : Prop :=
  match d with
  | JBool _ | JNum _ | JStr _ | JArr _ => True
  | JNull | JObj _ => False
  end.

(** What the merge logs, by what it finds at the path of the manifest. *)
Definition merge_log (found : option node) : list (level * string) :=
  match found with
  | None => []
  | Some (File (Doc _)) => [(Info, found_message)]
  | Some _ => [(Warn, unparsable_message)]
  end.

(** The seven operations that write one file into the root, with the name
    and the content of the file. *)
Definition single_file_artifacts : list (operation * string * content) :=
  [(Tsconfig, "tsconfig.json", Doc tsconfig);
   (TailwindConfig, "tailwind.config.js", Text tailwind_config);
   (PostCSSConfig, "postcss.config.js", Text postcss_contents);
   (EslintConfig, ".eslintrc.json", Doc eslintConfig);
   (IgnixConfig, "ignix.config.js", Text ignixConfig);
   (Gitignore, ".gitignore", Text gitignore_contents);
   (Readme, "README.md", Text readme)].

(** ** Numbers beyond the range of a double *)

(** A value that was read as an infinity. *)
Definition infinite (v : option json) : Prop :=
  ∃ neg, v = Some (JNum (NumInfinity neg)).

(** The values of [pkg] the merge keeps in place of a default: the four
    scalars, [scripts.dev] and the ranges of the five guarded packages. *)
Definition kept_values (pkg : json) : list (option json) :=
  [get pkg "name"; get pkg "version"; get pkg "private"; get pkg "type";
   opt_member (get pkg "scripts") "dev"]
  ++ (opt_member (get pkg "dependencies") <$> guarded_dependencies).

(** The number of arrays and objects in a value, for induction on it. *)
Fixpoint json_size (v : json) : nat :=
  match v with
  | JArr l => S (foldr (λ x acc, json_size x + acc) 0 l)
  | JObj m => S (map_fold (λ _ x acc, json_size x + acc) 0 m)
  | _ => 0
  end.

(** * Proofs *)

(** ** Object literals *)

Section object_literals.
Implicit Types (base m : gmap string json) (props : list (string * json)).

Lemma object_literal_snoc base props k v :
  object_literal base (props ++ [(k, v)]) = <[k := v]> (object_literal base props).
Proof. unfold object_literal. by rewrite foldl_app. Qed.

(** The literal is its properties, the last of a name winning, laid over
    what was spread. *)
Lemma object_literal_union base props :
  object_literal base props = list_to_map (reverse props) ∪ base.
Proof.
  induction props as [|[k v] props IH] using rev_ind.
  - unfold object_literal. simpl. by rewrite (left_id_L ∅ (∪)).
  - rewrite object_literal_snoc, reverse_app, IH. simpl.
    by rewrite insert_union_l.
Qed.

Lemma object_literal_absorb base props :
  object_literal (object_literal base props) props = object_literal base props.
Proof.
  rewrite !object_literal_union.
  by rewrite (assoc_L (∪)), (idemp_L (∪)).
Qed.

Lemma lookup_object_literal_other base props k :
  k ∉ props.*1 → object_literal base props !! k = base !! k.
Proof.
  intros Hk. rewrite object_literal_union.
  apply lookup_union_r, not_elem_of_list_to_map.
  by rewrite fmap_reverse, elem_of_reverse.
Qed.
End object_literals.

(** Reading a property with a known name out of a literal with known names. *)
Ltac literal_lookup :=
  unfold object_literal; cbn [foldl fst snd];
  repeat first [rewrite lookup_insert_eq | rewrite lookup_insert_ne by done].

(** ** The operators *)

Lemma js_or_truthy a d : truthy d = true → truthy (js_or a d) = true.
Proof. intros Hd. destruct a as [v|]; simpl; [|done]. by destruct (truthy v) eqn:Hv. Qed.

Lemma js_or_Some v d : truthy v = true → js_or (Some v) d = v.
Proof. intros Hv. simpl. by rewrite Hv. Qed.

Lemma js_or_again a d : truthy d = true → js_or (Some (js_or a d)) d = js_or a d.
Proof. intros Hd. by apply js_or_Some, js_or_truthy. Qed.

Lemma js_nullish_again a d : d ≠ JNull → js_nullish (Some (js_nullish a d)) d = js_nullish a d.
Proof. intros Hd. destruct a as [[]|]; simpl; try done; by destruct d. Qed.

(** ** What the merge puts under each name *)

Lemma starterPkg_not_null pkg :
  pkg ≠ JNull →
  starterPkg pkg =
    inr (starter_literal (get pkg "name") (get pkg "version") (get pkg "private")
           (get pkg "type") (get pkg "scripts") (get pkg "dependencies")
           (get pkg "devDependencies")).
Proof. by destruct pkg. Qed.

Lemma starterPkg_inv pkg out :
  starterPkg pkg = inr out →
  pkg ≠ JNull ∧
  out = starter_literal (get pkg "name") (get pkg "version") (get pkg "private")
          (get pkg "type") (get pkg "scripts") (get pkg "dependencies")
          (get pkg "devDependencies").
Proof.
  intros H. assert (pkg ≠ JNull) as Hn by (by intros ->).
  rewrite starterPkg_not_null in H by done. by injection H as <-.
Qed.

Section starter_literal.
Context (n v p t s d dd : option json).
Let out := starter_literal n v p t s d dd.

Lemma get_name : get out "name" = Some (js_or n (JStr "ignix-universal-app")).
Proof. subst out. simpl. by literal_lookup. Qed.
Lemma get_version : get out "version" = Some (js_or v (JStr "0.1.0")).
Proof. subst out. simpl. by literal_lookup. Qed.
Lemma get_private : get out "private" = Some (js_nullish p (JBool true)).
Proof. subst out. simpl. by literal_lookup. Qed.
Lemma get_type : get out "type" = Some (js_or t (JStr "module")).
Proof. subst out. simpl. by literal_lookup. Qed.
Lemma get_scripts : get out "scripts" = Some (JObj (starter_scripts s)).
Proof. subst out. simpl. by literal_lookup. Qed.
Lemma get_dependencies : get out "dependencies" = Some (JObj (starter_dependencies d)).
Proof. subst out. simpl. by literal_lookup. Qed.
Lemma get_devDependencies :
  get out "devDependencies" = Some (JObj (starter_devDependencies dd)).
Proof. subst out. simpl. by literal_lookup. Qed.
End starter_literal.

Lemma starter_literal_fields n v p t s d dd K :
  is_Some (get (starter_literal n v p t s d dd) K) ↔ K ∈ top_level_fields.
Proof.
  split.
  - intros Hsome. destruct (decide (K ∈ top_level_fields)) as [Hin|Hout]; [exact Hin|].
    unfold starter_literal in Hsome. cbn [get] in Hsome.
    rewrite lookup_object_literal_other in Hsome by exact Hout.
    by apply is_Some_None in Hsome.
  - unfold top_level_fields. rewrite !elem_of_cons, elem_of_nil.
    intros ?. destruct_or!; try done; subst;
      rewrite ?get_name, ?get_version, ?get_private, ?get_type, ?get_scripts,
        ?get_dependencies, ?get_devDependencies; eauto.
Qed.

(** ** The nested mappings *)

Lemma starter_scripts_dev s :
  starter_scripts s !! "dev" =
    Some (js_or (opt_member s "dev")
            (JStr ("echo " +:+ dq +:+
                   "Plug your preferred framework dev server here (e.g. vite dev)" +:+ dq))).
Proof. unfold starter_scripts. by literal_lookup. Qed.

Lemma starter_scripts_other s k :
  k ≠ "dev" → k ∉ fixed_scripts → starter_scripts s !! k = spread s !! k.
Proof.
  intros Hdev Hk. unfold starter_scripts.
  apply lookup_object_literal_other. cbn [fmap list_fmap fst].
  by apply not_elem_of_cons.
Qed.

Lemma starter_scripts_kept m k v :
  m !! k = Some v → k ∉ fixed_scripts → (k = "dev" → truthy v = true) →
  starter_scripts (Some (JObj m)) !! k = Some v.
Proof.
  intros Hv Hk Hdev. destruct (decide (k = "dev")) as [->|Hne].
  - rewrite starter_scripts_dev. cbn [opt_member get]. rewrite Hv.
    by apply (f_equal Some), js_or_Some, Hdev.
  - by rewrite starter_scripts_other.
Qed.

Lemma starter_dependencies_guarded d k :
  k ∈ guarded_dependencies →
  ∃ range, starter_dependencies d !! k = Some (js_or (opt_member d k) (JStr range))
           ∧ range ≠ "".
Proof.
  unfold guarded_dependencies. rewrite !elem_of_cons, elem_of_nil.
  intros [->|[->|[->|[->|[->|[]]]]]]; unfold starter_dependencies;
    eexists; (split; [by literal_lookup|done]).
Qed.

Lemma starter_dependencies_other d k :
  k ∉ guarded_dependencies →
  starter_dependencies d !! k = spread (Some (js_or d (JObj ∅))) !! k.
Proof.
  intros Hk. unfold starter_dependencies.
  apply lookup_object_literal_other. cbn [fmap list_fmap fst].
  exact Hk.
Qed.

Lemma starter_dependencies_kept m k v :
  m !! k = Some v → (k ∈ guarded_dependencies → truthy v = true) →
  starter_dependencies (Some (JObj m)) !! k = Some v.
Proof.
  intros Hv Hk. destruct (decide (k ∈ guarded_dependencies)) as [Hin|Hout].
  - destruct (starter_dependencies_guarded (Some (JObj m)) k Hin) as (range & -> & _).
    cbn [opt_member get]. rewrite Hv. by apply (f_equal Some), js_or_Some, Hk.
  - by rewrite starter_dependencies_other.
Qed.

Lemma starter_devDependencies_other dd k :
  k ∉ fixed_devDependencies →
  starter_devDependencies dd !! k = spread (Some (js_or dd (JObj ∅))) !! k.
Proof.
  intros Hk. unfold starter_devDependencies.
  apply lookup_object_literal_other. cbn [fmap list_fmap fst].
  exact Hk.
Qed.

Lemma starter_devDependencies_kept m k v :
  m !! k = Some v → k ∉ fixed_devDependencies →
  starter_devDependencies (Some (JObj m)) !! k = Some v.
Proof. intros Hv Hk. by rewrite starter_devDependencies_other. Qed.

(** ** Merging what the merge produced *)

Lemma starter_scripts_again s :
  starter_scripts (Some (JObj (starter_scripts s))) = starter_scripts s.
Proof.
  unfold starter_scripts at 1. cbn [spread opt_member get].
  rewrite starter_scripts_dev, js_or_again by done.
  apply object_literal_absorb.
Qed.

Lemma starter_dependencies_again d :
  starter_dependencies (Some (JObj (starter_dependencies d))) = starter_dependencies d.
Proof.
  unfold starter_dependencies at 1. cbn [spread opt_member get js_or truthy].
  assert (∀ k range, range ≠ "" →
    starter_dependencies d !! k = Some (js_or (opt_member d k) (JStr range)) →
    js_or (starter_dependencies d !! k) (JStr range) = js_or (opt_member d k) (JStr range))
    as Hagain.
  { intros k range Hr ->. apply js_or_again. simpl. by case_bool_decide. }
  rewrite !Hagain by (done || unfold starter_dependencies; by literal_lookup).
  apply object_literal_absorb.
Qed.

Lemma starter_devDependencies_again dd :
  starter_devDependencies (Some (JObj (starter_devDependencies dd))) =
    starter_devDependencies dd.
Proof.
  unfold starter_devDependencies at 1. cbn [spread js_or truthy].
  apply object_literal_absorb.
Qed.

Lemma starter_literal_again n v p t s d dd :
  let out := starter_literal n v p t s d dd in
  starter_literal (get out "name") (get out "version") (get out "private")
    (get out "type") (get out "scripts") (get out "dependencies")
    (get out "devDependencies") = out.
Proof.
  intros out. subst out.
  rewrite get_name, get_version, get_private, get_type, get_scripts,
    get_dependencies, get_devDependencies.
  unfold starter_literal.
  rewrite !js_or_again, js_nullish_again by done.
  by rewrite starter_scripts_again, starter_dependencies_again,
    starter_devDependencies_again.
Qed.

(** The merge leaves a manifest it built as it is. *)
Lemma starterPkg_idempotent pkg out :
  starterPkg pkg = inr out → starterPkg out = inr out.
Proof.
  intros [_ ->]%starterPkg_inv.
  rewrite starterPkg_not_null by done.
  by rewrite starter_literal_again.
Qed.

(** * The claims about the merged manifest *)

(** C1 (as amended): in each of the three nested mappings, an existing entry
    [k: v] is still [k: v] in the merged manifest when it is a truthy value
    under a name the merge guards ([scripts.dev] and the five packages of
    [dependencies]) or its name is not one the merge sets itself. *)
Theorem existing_nested_entries_kept (existing m : gmap string json)
    (field k : string) (v : json) :
  existing !! field = Some (JObj m) →
  m !! k = Some v →
  survives field k v →
  ∃ out, starterPkg (JObj existing) = inr out ∧ nested out field k = Some v.
Proof.
  intros Hfield Hv Hs. eexists. split; [by apply starterPkg_not_null|].
  unfold nested. cbn [get].
  destruct Hs as [(-> & Hk & Hdev)|[(-> & Hk)|(-> & Hk)]]; rewrite Hfield.
  - rewrite get_scripts. by apply starter_scripts_kept.
  - rewrite get_dependencies. by apply starter_dependencies_kept.
  - rewrite get_devDependencies. by apply starter_devDependencies_kept.
Qed.

Lemma existing_nested_entries_kept_witness :
  ∃ out,
    starterPkg (JObj {[ "devDependencies" := JObj {[ "vitest" := JStr "^2.1.0" ]} ]}) = inr out
    ∧ nested out "devDependencies" "vitest" = Some (JStr "^2.1.0").
Proof.
  apply (existing_nested_entries_kept _ {[ "vitest" := JStr "^2.1.0" ]}).
  - reflexivity.
  - reflexivity.
  - right. right. split; [reflexivity|]. apply (bool_decide_unpack _). by vm_compute.
Defined.

(** C1 as stated fails: an existing [build] script and an existing
    [typescript] range are both replaced by the starter's own. *)
Lemma existing_nested_entries_overwritten :
  let existing : gmap string json :=
    {[ "scripts" := JObj {[ "build" := JStr "vite build" ]};
       "devDependencies" := JObj {[ "typescript" := JStr "^4.9.5" ]} ]} in
  ∃ out,
    starterPkg (JObj existing) = inr out
    ∧ nested (JObj existing) "scripts" "build" = Some (JStr "vite build")
    ∧ nested out "scripts" "build" = Some (JStr "npm run typecheck && npm run build:css")
    ∧ nested out "scripts" "build" ≠ nested (JObj existing) "scripts" "build"
    ∧ nested (JObj existing) "devDependencies" "typescript" = Some (JStr "^4.9.5")
    ∧ nested out "devDependencies" "typescript" = Some (JStr "^5.6.2")
    ∧ nested out "devDependencies" "typescript"
        ≠ nested (JObj existing) "devDependencies" "typescript".
Proof. eexists. repeat split; vm_compute; done. Qed.

Lemma starterPkg_empty : starterPkg (JObj ∅) = inr default_manifest.
Proof. vm_compute. reflexivity. Qed.

Lemma starterPkg_default : starterPkg default_manifest = inr default_manifest.
Proof. apply starterPkg_idempotent with (JObj ∅), starterPkg_empty. Qed.

Lemma starter_scripts_fixed s :
  starter_scripts s !! "typecheck" = Some (JStr "tsc --noEmit")
  ∧ starter_scripts s !! "build:css" =
      Some (JStr "tailwindcss -i ./src/styles/index.css -o ./dist/styles.css --minify")
  ∧ starter_scripts s !! "build" = Some (JStr "npm run typecheck && npm run build:css")
  ∧ starter_scripts s !! "lint" =
      Some (JStr ("eslint " +:+ dq +:+ "src/**/*.{ts,tsx}" +:+ dq +:+ " --max-warnings=0"))
  ∧ starter_scripts s !! "format" =
      Some (JStr ("prettier --write " +:+ dq +:+ "src/**/*.{ts,tsx,css,md}" +:+ dq)).
Proof. unfold starter_scripts. repeat split; by literal_lookup. Qed.

(** C4 (as amended): a [scripts.dev] of the existing manifest whose value [V]
    is truthy is [scripts.dev] of the merged manifest, next to the five
    scripts of the starter; a truthy existing [name] is kept as well.  At
    [{name: foo, scripts: {dev: custom}}] this is the example of the
    specification. *)
Theorem custom_dev_script_kept (existing m : gmap string json) (V : json) :
  existing !! "scripts" = Some (JObj m) →
  m !! "dev" = Some V →
  truthy V = true →
  ∃ out,
    starterPkg (JObj existing) = inr out
    ∧ nested out "scripts" "dev" = Some V
    ∧ nested out "scripts" "typecheck" = Some (JStr "tsc --noEmit")
    ∧ nested out "scripts" "build:css" =
        Some (JStr "tailwindcss -i ./src/styles/index.css -o ./dist/styles.css --minify")
    ∧ nested out "scripts" "build" = Some (JStr "npm run typecheck && npm run build:css")
    ∧ nested out "scripts" "lint" =
        Some (JStr ("eslint " +:+ dq +:+ "src/**/*.{ts,tsx}" +:+ dq +:+ " --max-warnings=0"))
    ∧ nested out "scripts" "format" =
        Some (JStr ("prettier --write " +:+ dq +:+ "src/**/*.{ts,tsx,css,md}" +:+ dq))
    ∧ (∀ n, existing !! "name" = Some n → truthy n = true → get out "name" = Some n).
Proof.
  intros Hscripts Hdev HV. eexists. split; [by apply starterPkg_not_null|].
  unfold nested. rewrite get_scripts, get_name. cbn [get mbind option_bind].
  rewrite Hscripts.
  split; [apply starter_scripts_kept; [done | by apply (bool_decide_unpack _) | done]|].
  destruct (starter_scripts_fixed (Some (JObj m))) as (? & ? & ? & ? & ?).
  repeat (split; [done|]).
  intros n -> Hn. by rewrite js_or_Some.
Qed.

Lemma custom_dev_script_kept_witness :
  ∃ out,
    starterPkg (JObj {[ "name" := JStr "foo";
                        "scripts" := JObj {[ "dev" := JStr "custom" ]} ]}) = inr out
    ∧ nested out "scripts" "dev" = Some (JStr "custom")
    ∧ nested out "scripts" "typecheck" = Some (JStr "tsc --noEmit")
    ∧ nested out "scripts" "build:css" =
        Some (JStr "tailwindcss -i ./src/styles/index.css -o ./dist/styles.css --minify")
    ∧ nested out "scripts" "build" = Some (JStr "npm run typecheck && npm run build:css")
    ∧ nested out "scripts" "lint" =
        Some (JStr ("eslint " +:+ dq +:+ "src/**/*.{ts,tsx}" +:+ dq +:+ " --max-warnings=0"))
    ∧ nested out "scripts" "format" =
        Some (JStr ("prettier --write " +:+ dq +:+ "src/**/*.{ts,tsx,css,md}" +:+ dq))
    ∧ get out "name" = Some (JStr "foo").
Proof.
  destruct (custom_dev_script_kept
              {[ "name" := JStr "foo"; "scripts" := JObj {[ "dev" := JStr "custom" ]} ]}
              {[ "dev" := JStr "custom" ]} (JStr "custom"))
    as (out & Hout & Hdev & Htc & Hcss & Hbuild & Hlint & Hformat & Hname);
    [reflexivity..|].
  exists out. repeat (split; [assumption|]).
  apply Hname; reflexivity.
Defined.

(** C4 as stated fails at an empty [dev] script: the starter's placeholder
    takes its place. *)
Lemma empty_dev_script_replaced :
  let existing : gmap string json := {[ "scripts" := JObj {[ "dev" := JStr "" ]} ]} in
  ∃ out,
    starterPkg (JObj existing) = inr out
    ∧ nested (JObj existing) "scripts" "dev" = Some (JStr "")
    ∧ nested out "scripts" "dev" = Some (JStr default_dev)
    ∧ nested out "scripts" "dev" ≠ nested (JObj existing) "scripts" "dev".
Proof. eexists. repeat split; vm_compute; done. Qed.

(** C5 (as amended): a package of the existing [dependencies] keeps its range
    [R] in the merged manifest when [R] is truthy (not the empty string) or
    the package is not one of the five the starter adds. *)
Theorem pinned_dependency_kept (existing m : gmap string json) (k : string) (R : json) :
  existing !! "dependencies" = Some (JObj m) →
  m !! k = Some R →
  truthy R = true ∨ k ∉ guarded_dependencies →
  ∃ out, starterPkg (JObj existing) = inr out ∧ nested out "dependencies" k = Some R.
Proof.
  intros Hdeps HR Hk. eexists. split; [by apply starterPkg_not_null|].
  unfold nested. rewrite get_dependencies. cbn [get mbind option_bind].
  rewrite Hdeps. apply starter_dependencies_kept; [done|].
  by destruct Hk.
Qed.

Lemma pinned_dependency_kept_witness :
  ∃ out,
    starterPkg (JObj {[ "dependencies" := JObj {[ "react" := JStr "^17.0.2" ]} ]}) = inr out
    ∧ nested out "dependencies" "react" = Some (JStr "^17.0.2").
Proof.
  apply (pinned_dependency_kept _ {[ "react" := JStr "^17.0.2" ]}).
  - reflexivity.
  - reflexivity.
  - left. reflexivity.
Defined.

(** C5 as stated fails at the empty range, which stands for any version:
    the starter's range takes its place. *)
Lemma empty_range_replaced :
  let existing : gmap string json := {[ "dependencies" := JObj {[ "react" := JStr "" ]} ]} in
  ∃ out,
    starterPkg (JObj existing) = inr out
    ∧ nested (JObj existing) "dependencies" "react" = Some (JStr "")
    ∧ nested out "dependencies" "react" = Some (JStr "^18.3.1")
    ∧ nested out "dependencies" "react" ≠ nested (JObj existing) "dependencies" "react".
Proof. eexists. repeat split; vm_compute; done. Qed.

(** C8 (as amended): [name], [version] and [type] of the merged manifest are
    the existing values when these are present and truthy, and the defaults
    otherwise; [private] is the existing value when it is present and not
    [null], and [true] otherwise. *)
Theorem top_level_scalars (existing : gmap string json) :
  ∃ out,
    starterPkg (JObj existing) = inr out
    ∧ scalar_rule truthy existing out "name" (JStr "ignix-universal-app")
    ∧ scalar_rule truthy existing out "version" (JStr "0.1.0")
    ∧ scalar_rule not_null existing out "private" (JBool true)
    ∧ scalar_rule truthy existing out "type" (JStr "module").
Proof.
  eexists. split; [by apply starterPkg_not_null|].
  unfold scalar_rule. rewrite get_name, get_version, get_private, get_type.
  cbn [get]. repeat split; f_equal.
  destruct (existing !! "private") as [[]|]; done.
Qed.

(** C8 as stated fails: a [name] that is present but empty gives way to the
    default, and so does a [private] that is present but [null]. *)
Lemma present_scalars_replaced :
  let existing : gmap string json := {[ "name" := JStr ""; "private" := JNull ]} in
  ∃ out,
    starterPkg (JObj existing) = inr out
    ∧ existing !! "name" = Some (JStr "")
    ∧ get out "name" = Some (JStr "ignix-universal-app")
    ∧ get out "name" ≠ existing !! "name"
    ∧ existing !! "private" = Some JNull
    ∧ get out "private" = Some (JBool true)
    ∧ get out "private" ≠ existing !! "private".
Proof. eexists. repeat split; vm_compute; done. Qed.

(** * The file system *)

Lemma cons_ne_self (x : string) (p : path) : x :: p ≠ p.
Proof. intros H. apply (f_equal length) in H. simpl in H. lia. Qed.

Section write.
Implicit Types (p : path) (c : content) (s : state).

Lemma write_ok p c s :
  files s !! p ≠ Some Dir →
  files s !! tail p = Some Dir →
  write p c s = (inr (), State (<[p := File c]> (files s)) (log s)).
Proof.
  intros Hp Hparent. unfold write. rewrite Hparent.
  by destruct (files s !! p) as [[]|].
Qed.

Lemma write_inv p c s s' :
  write p c s = (inr (), s') →
  files s !! p ≠ Some Dir ∧ files s !! tail p = Some Dir
  ∧ s' = State (<[p := File c]> (files s)) (log s).
Proof.
  unfold write. intros H.
  destruct (files s !! p) as [[|c']|] eqn:Hp; [done|..];
    destruct (files s !! tail p) as [[|c'']|]; try done;
    by injection H as <-.
Qed.

Lemma write_err p c s e s' : write p c s = (inl e, s') → s' = s.
Proof.
  unfold write. intros H.
  destruct (files s !! p) as [[|c']|]; [by injection H|..];
    destruct (files s !! tail p) as [[|c'']|]; by injection H.
Qed.
End write.

Section mkdirs.
Implicit Types (p q : path) (fs : gmap path node).

Lemma mkdirs_fixed p fs : fs !! p = Some Dir → mkdirs p fs = inr fs.
Proof. intros H. destruct p; simpl; by rewrite H. Qed.

Lemma mkdirs_inv p fs fs' :
  mkdirs p fs = inr fs' →
  (fs !! p = Some Dir ∧ fs' = fs)
  ∨ (fs !! p = None ∧
     match p with
     | [] => fs' = <[p := Dir]> fs
     | _ :: parent => ∃ fs1, mkdirs parent fs = inr fs1 ∧ fs' = <[p := Dir]> fs1
     end).
Proof.
  intros H. destruct p as [|x parent]; simpl in H.
  - destruct (fs !! []) as [[|c]|]; [left|done|right]; by injection H as <-.
  - destruct (fs !! (x :: parent)) as [[|c]|]; [left; by injection H as <-|done|right].
    destruct (mkdirs parent fs) as [e|fs1]; [done|]. injection H as <-. eauto.
Qed.

(** What [mkdirs] leaves and what it adds: nothing is changed, and every
    path it adds is a directory on the way to [p]. *)
Lemma mkdirs_lookup p fs fs' q :
  mkdirs p fs = inr fs' →
  fs' !! q = fs !! q ∨ (fs !! q = None ∧ fs' !! q = Some Dir ∧ q `suffix_of` p).
Proof.
  revert fs'. induction p as [|x parent IH]; intros fs' H;
    apply mkdirs_inv in H as [[_ ->]|[Hnone H]]; [by left| |by left|].
  - subst fs'. destruct (decide (q = [])) as [->|Hq].
    + right. by rewrite lookup_insert_eq.
    + left. by rewrite lookup_insert_ne.
  - destruct H as (fs1 & H1 & ->).
    destruct (decide (q = x :: parent)) as [->|Hq].
    + right. by rewrite lookup_insert_eq.
    + rewrite lookup_insert_ne by done.
      destruct (IH _ H1) as [?|(? & ? & ?)]; [by left|right].
      split_and!; [done..|]. by apply suffix_cons_r.
Qed.

Lemma mkdirs_dir p fs fs' : mkdirs p fs = inr fs' → fs' !! p = Some Dir.
Proof.
  intros H. apply mkdirs_inv in H as [[? ->]|[_ H]]; [done|].
  destruct p; [subst fs'|destruct H as (? & _ & ->)]; apply lookup_insert_eq.
Qed.

Lemma mkdirs_keeps p fs fs' q n :
  mkdirs p fs = inr fs' → fs !! q = Some n → fs' !! q = Some n.
Proof.
  intros H Hq. destruct (mkdirs_lookup p fs fs' q H) as [->|[? _]]; congruence.
Qed.
End mkdirs.

Section ensureDir.
Implicit Types (p q : path) (s : state).

Lemma ensureDir_inv p s s' :
  ensureDir p s = (inr (), s') →
  ∃ fs', mkdirs p (files s) = inr fs' ∧ s' = State fs' (log s).
Proof.
  unfold ensureDir. intros H.
  destruct (mkdirs p (files s)) as [e|fs']; [done|]. injection H as <-. eauto.
Qed.

Lemma ensureDir_err p s e s' : ensureDir p s = (inl e, s') → s' = s.
Proof.
  unfold ensureDir. intros H.
  destruct (mkdirs p (files s)) as [e'|fs']; by injection H.
Qed.

Lemma ensureDir_fixed p s : files s !! p = Some Dir → ensureDir p s = (inr (), s).
Proof. intros H. unfold ensureDir. rewrite mkdirs_fixed by done. by destruct s. Qed.
End ensureDir.

(** * What is written for a document *)

Lemma get_serialise v k : get (serialise v) k = serialise <$> get v k.
Proof. destruct v as [| |[]| | |m]; try done. simpl. apply lookup_fmap. Qed.

Lemma serialise_default_manifest : serialise default_manifest = default_manifest.
Proof. vm_compute. reflexivity. Qed.

Lemma serialise_tsconfig : serialise tsconfig = tsconfig.
Proof. vm_compute. reflexivity. Qed.

Lemma serialise_eslintConfig : serialise eslintConfig = eslintConfig.
Proof. vm_compute. reflexivity. Qed.

(** * The merge on the file system *)

(** The three ways the merge can go, decided by what is at the path of the
    manifest: a document is merged, anything else is replaced by the default
    after a warning, and nothing at all is replaced silently. *)
Lemma createUniversalPackageJson_cases root s :
  let pkgPath := join root ["package.json"] in
  createUniversalPackageJson root s =
    match files s !! pkgPath with
    | Some (File (Doc d)) =>
        let s' := State (files s) (log s ++ [(Info, found_message)]) in
        match starterPkg d with
        | inr out => writeJSON pkgPath out s'
        | inl e => (inl e, s')
        end
    | Some _ =>
        writeJSON pkgPath default_manifest
          (State (files s) (log s ++ [(Warn, unparsable_message)]))
    | None => writeJSON pkgPath default_manifest s
    end.
Proof.
  intros pkgPath. unfold createUniversalPackageJson. fold pkgPath.
  cbv [mbind io_bind mret io_ret pathExists readJSON try_catch lift
       logger_info logger_warn].
  destruct (files s !! pkgPath) as [[|[d|text]]|] eqn:Hp;
    rewrite ?bool_decide_eq_true_2, ?bool_decide_eq_false_2
      by (rewrite ?is_Some_alt; done); cbn [files log];
    rewrite ?Hp, ?starterPkg_empty; done.
Qed.

(** C3: with no [package.json] under the root, the merge is the writing of
    the default document, whatever else the file system holds; when the root
    is a directory the write goes through, the file holds exactly the default
    document, and nothing is logged. *)
Theorem fresh_manifest_is_default (root : path) (s : state) :
  files s !! join root ["package.json"] = None →
  createUniversalPackageJson root s = writeJSON (join root ["package.json"]) default_manifest s
  ∧ (files s !! root = Some Dir →
     createUniversalPackageJson root s =
       (inr (),
        State (<[join root ["package.json"] := File (Doc default_manifest)]> (files s))
              (log s))).
Proof.
  intros Hnone. rewrite createUniversalPackageJson_cases. cbn zeta. rewrite Hnone.
  split; [done|]. intros Hroot. unfold writeJSON.
  rewrite serialise_default_manifest. apply write_ok; [by rewrite Hnone|done].
Qed.

Lemma fresh_manifest_is_default_witness :
  let s := State {[ [] := Dir; ["app"] := Dir ]} [] in
  createUniversalPackageJson ["app"] s = writeJSON ["package.json"; "app"] default_manifest s
  ∧ createUniversalPackageJson ["app"] s =
      (inr (),
       State (<[ ["package.json"; "app"] := File (Doc default_manifest)]> (files s)) []).
Proof.
  intros s. destruct (fresh_manifest_is_default ["app"] s) as [Hwrite Hfile].
  - reflexivity.
  - split; [exact Hwrite|]. apply Hfile. reflexivity.
Defined.

(** C6: a [package.json] that is there but does not parse makes the merge
    return without throwing: a warning is recorded and the file holds the
    full default document, as if there had been none. *)
Theorem unparsable_manifest_replaced (root : path) (s : state) (text : string) :
  files s !! join root ["package.json"] = Some (File (Text text)) →
  files s !! root = Some Dir →
  createUniversalPackageJson root s =
    (inr (),
     State (<[join root ["package.json"] := File (Doc default_manifest)]> (files s))
           (log s ++ [(Warn, unparsable_message)])).
Proof.
  intros Htext Hroot. rewrite createUniversalPackageJson_cases. cbn zeta.
  rewrite Htext. unfold writeJSON. rewrite serialise_default_manifest.
  apply write_ok; cbn [files]; [by rewrite Htext|done].
Qed.

Lemma unparsable_manifest_replaced_witness :
  let s := State {[ [] := Dir; ["app"] := Dir;
                    ["package.json"; "app"] := File (Text "{ ") ]} [] in
  createUniversalPackageJson ["app"] s =
    (inr (),
     State (<[ ["package.json"; "app"] := File (Doc default_manifest)]> (files s))
           [(Warn, unparsable_message)]).
Proof.
  intros s. apply (unparsable_manifest_replaced ["app"] s "{ "); reflexivity.
Defined.

(** A run of the merge that returns has written what [starterPkg] built. *)
Lemma createUniversalPackageJson_inv root s s' :
  createUniversalPackageJson root s = (inr (), s') →
  ∃ pkg out s0,
    starterPkg pkg = inr out
    ∧ writeJSON (join root ["package.json"]) out s0 = (inr (), s').
Proof.
  intros Hrun. rewrite createUniversalPackageJson_cases in Hrun. cbn zeta in Hrun.
  destruct (files s !! join root ["package.json"]) as [[|[d|text]]|];
    [|destruct (starterPkg d) as [e|out] eqn:Hd; [done|]|..];
    eauto using starterPkg_empty.
Qed.

(** C2 (as amended): the manifest the merge writes has the seven properties
    [name], [version], [private], [type], [scripts], [dependencies] and
    [devDependencies] and no other: a top-level key of the existing manifest
    outside these seven is not carried over. *)
Theorem merged_manifest_fields (root : path) (s s' : state) :
  createUniversalPackageJson root s = (inr (), s') →
  ∃ out,
    files s' !! join root ["package.json"] = Some (File (Doc out))
    ∧ ∀ K, is_Some (get out K) ↔ K ∈ top_level_fields.
Proof.
  intros (pkg & out & s0 & Hout & Hwrite)%createUniversalPackageJson_inv.
  apply write_inv in Hwrite as (_ & _ & ->). exists (serialise out). cbn [files].
  split; [by rewrite lookup_insert_eq|].
  apply starterPkg_inv in Hout as [_ ->]. intros K.
  rewrite get_serialise, fmap_is_Some. apply starter_literal_fields.
Qed.

Lemma merged_manifest_fields_witness :
  let s := State {[ [] := Dir; ["app"] := Dir;
                    ["package.json"; "app"] :=
                      File (Doc (JObj {[ "name" := JStr "foo";
                                         "license" := JStr "MIT" ]})) ]} [] in
  ∃ out,
    files (createUniversalPackageJson ["app"] s).2 !! ["package.json"; "app"] =
      Some (File (Doc out))
    ∧ ∀ K, is_Some (get out K) ↔ K ∈ top_level_fields.
Proof.
  intros s. apply (merged_manifest_fields ["app"] s). vm_compute. reflexivity.
Defined.

(** C2 as stated fails: the merge of a manifest with a [license] writes a
    manifest without it. *)
Lemma unknown_top_level_key_dropped :
  let existing := JObj {[ "name" := JStr "foo"; "license" := JStr "MIT" ]} in
  let s := State {[ [] := Dir; ["app"] := Dir;
                    ["package.json"; "app"] := File (Doc existing) ]} [] in
  ∃ s' out,
    createUniversalPackageJson ["app"] s = (inr (), s')
    ∧ files s' !! ["package.json"; "app"] = Some (File (Doc out))
    ∧ get existing "license" = Some (JStr "MIT")
    ∧ get out "name" = Some (JStr "foo")
    ∧ get out "license" = None
    ∧ get out "license" ≠ get existing "license".
Proof. do 2 eexists. repeat split; vm_compute; done. Qed.

(** ** Reading back what was written *)

Lemma json_size_element l x : x ∈ l → json_size x < json_size (JArr l).
Proof. intros Hx. simpl. induction Hx as [x l|x y l _ IH]; simpl; lia. Qed.

Lemma json_size_property (m : gmap string json) k x :
  m !! k = Some x → json_size x < json_size (JObj m).
Proof.
  intros Hk. simpl. rewrite (map_fold_delete_L _ _ k x m); [lia| |done].
  intros. lia.
Qed.

Lemma json_nested_ind (P : json → Prop) :
  P JNull → (∀ b, P (JBool b)) → (∀ x, P (JNum x)) → (∀ s, P (JStr s)) →
  (∀ l, Forall P l → P (JArr l)) →
  (∀ m, map_Forall (λ _, P) m → P (JObj m)) →
  ∀ v, P v.
Proof.
  intros Hnull Hbool Hnum Hstr Harr Hobj v.
  remember (json_size v) as n eqn:Hn. revert v Hn.
  induction n as [n IH] using lt_wf_ind. intros v ->.
  destruct v as [| | | |l|m]; [done..| |].
  - apply Harr, Forall_forall. intros x Hx.
    by apply (IH (json_size x)); [apply json_size_element|].
  - apply Hobj. intros k x Hk.
    by apply (IH (json_size x)); [apply (json_size_property m k)|].
Qed.

(** Writing what was written changes nothing more. *)
Lemma serialise_idempotent v : serialise (serialise v) = serialise v.
Proof.
  induction v as [| | [] | |l IH|m IH] using json_nested_ind; simpl; try done.
  - f_equal. rewrite <-list_fmap_compose. apply Forall_fmap_ext_1.
    eapply Forall_impl; [exact IH|]. done.
  - f_equal. rewrite <-map_fmap_compose. apply map_fmap_ext.
    intros k x Hk. by apply (IH k x).
Qed.

Lemma serialise_map_idempotent (m : gmap string json) :
  serialise <$> (serialise <$> m) = serialise <$> m.
Proof.
  rewrite <-map_fmap_compose. apply map_fmap_ext.
  intros k x _. apply serialise_idempotent.
Qed.

Lemma fmap_object_literal (f : json → json) base props :
  f <$> object_literal base props =
    object_literal (f <$> base) ((λ kv, (kv.1, f kv.2)) <$> props).
Proof.
  revert base. induction props as [|[k v] props IH]; intros base; [done|].
  change (object_literal base ((k, v) :: props))
    with (object_literal (<[k := v]> base) props).
  rewrite IH, fmap_insert. done.
Qed.

Lemma truthy_serialise v :
  ¬ infinite (Some v) → truthy (serialise v) = truthy v.
Proof. intros Hv. destruct v as [| |[| |neg]| | |]; try done. destruct Hv. by exists neg. Qed.

Lemma js_or_not_infinite a s : ¬ infinite a → ¬ infinite (Some (js_or a (JStr s))).
Proof.
  intros Ha [neg Hx]. destruct a as [v|]; simpl in Hx; [|done].
  destruct (truthy v); [|done]. apply Ha. exists neg. by injection Hx as ->.
Qed.

(** A value the merge kept or defaulted is kept again once written, unless
    it was an infinity. *)
Lemma js_or_serialised a s :
  ¬ infinite a → s ≠ "" →
  js_or (Some (serialise (js_or a (JStr s)))) (JStr s) = serialise (js_or a (JStr s)).
Proof.
  intros Ha Hs. apply js_or_Some. rewrite truthy_serialise by by apply js_or_not_infinite.
  apply js_or_truthy. simpl. by case_bool_decide.
Qed.

Lemma js_nullish_serialised a :
  ¬ infinite a →
  js_nullish (Some (serialise (js_nullish a (JBool true)))) (JBool true) =
    serialise (js_nullish a (JBool true)).
Proof.
  intros Ha. destruct a as [[| |[| |neg]| | |]|]; try done. destruct Ha. by exists neg.
Qed.

Lemma starter_scripts_serialised sc :
  ¬ infinite (opt_member sc "dev") →
  starter_scripts (Some (JObj (serialise <$> starter_scripts sc))) =
    serialise <$> starter_scripts sc.
Proof.
  intros Hdev. unfold starter_scripts at 1. cbn [spread opt_member get].
  rewrite lookup_fmap, starter_scripts_dev. cbn [fmap option_fmap option_map].
  rewrite js_or_serialised by done.
  unfold starter_scripts. rewrite fmap_object_literal. cbn [fmap list_fmap fst snd serialise].
  apply object_literal_absorb.
Qed.

Lemma starter_dependencies_serialised d :
  Forall (λ v, ¬ infinite v) (opt_member d <$> guarded_dependencies) →
  starter_dependencies (Some (JObj (serialise <$> starter_dependencies d))) =
    serialise <$> starter_dependencies d.
Proof.
  intros Hd. unfold starter_dependencies at 1. cbn [spread opt_member get js_or truthy].
  assert (∀ k range, k ∈ guarded_dependencies → range ≠ "" →
    starter_dependencies d !! k = Some (js_or (opt_member d k) (JStr range)) →
    js_or ((serialise <$> starter_dependencies d) !! k) (JStr range) =
      serialise (js_or (opt_member d k) (JStr range))) as Hagain.
  { intros k range Hk Hr Hlookup. rewrite lookup_fmap, Hlookup.
    cbn [fmap option_fmap option_map]. apply js_or_serialised; [|done].
    rewrite Forall_forall in Hd. apply Hd. by apply list_elem_of_fmap_2. }
  rewrite !Hagain
    by (done || (apply (bool_decide_unpack _); by vm_compute)
        || (unfold starter_dependencies; by literal_lookup)).
  unfold starter_dependencies. rewrite fmap_object_literal.
  cbn [fmap list_fmap fst snd serialise]. apply object_literal_absorb.
Qed.

Lemma starter_devDependencies_serialised dd :
  starter_devDependencies (Some (JObj (serialise <$> starter_devDependencies dd))) =
    serialise <$> starter_devDependencies dd.
Proof.
  unfold starter_devDependencies at 1. cbn [spread js_or truthy].
  unfold starter_devDependencies. rewrite fmap_object_literal.
  cbn [fmap list_fmap fst snd serialise]. apply object_literal_absorb.
Qed.

(** The merge of what the merge wrote is written as the same document, when
    none of the values it keeps was an infinity. *)
Lemma starterPkg_serialised pkg out :
  starterPkg pkg = inr out →
  Forall (λ v, ¬ infinite v) (kept_values pkg) →
  ∃ out2, starterPkg (serialise out) = inr out2 ∧ serialise out2 = serialise out.
Proof.
  intros [_ ->]%starterPkg_inv Hkept. eexists. split.
  { apply starterPkg_not_null. by unfold starter_literal. }
  unfold kept_values in Hkept. apply Forall_app in Hkept as [Hscalars Hdeps].
  apply Forall_cons in Hscalars as [Hn Hscalars].
  apply Forall_cons in Hscalars as [Hv Hscalars].
  apply Forall_cons in Hscalars as [Hp Hscalars].
  apply Forall_cons in Hscalars as [Ht Hscalars].
  apply Forall_cons in Hscalars as [Hdev _].
  rewrite !get_serialise, get_name, get_version, get_private, get_type, get_scripts,
    get_dependencies, get_devDependencies.
  cbn [fmap option_fmap option_map serialise].
  unfold starter_literal. cbn [serialise]. f_equal.
  rewrite !fmap_object_literal. cbn [fmap list_fmap fst snd serialise].
  rewrite !js_or_serialised, js_nullish_serialised by done.
  rewrite starter_scripts_serialised, starter_dependencies_serialised,
    starter_devDependencies_serialised by done.
  by rewrite !serialise_idempotent, !serialise_map_idempotent.
Qed.

(** A run of the merge that returns has written the document [starterPkg]
    built from what it read, or from the empty object when it read none. *)
Lemma createUniversalPackageJson_read root s s' :
  createUniversalPackageJson root s = (inr (), s') →
  ∃ pkg out s0,
    (files s !! join root ["package.json"] = Some (File (Doc pkg)) ∨ pkg = JObj ∅)
    ∧ starterPkg pkg = inr out
    ∧ writeJSON (join root ["package.json"]) out s0 = (inr (), s').
Proof.
  intros Hrun. rewrite createUniversalPackageJson_cases in Hrun. cbn zeta in Hrun.
  destruct (files s !! join root ["package.json"]) as [[|[d|text]]|];
    [|destruct (starterPkg d) as [e|out] eqn:Hd; [done|]|..];
    eauto 8 using starterPkg_empty.
Qed.

(** C10 (as amended): when none of the values the merge keeps from the
    existing [package.json] ([name], [version], [private], [type],
    [scripts.dev] and the ranges of the five guarded packages) is a number
    beyond the range of a double, and the merge has returned, merging again
    returns as well and leaves every file as the first run left it;
    [package.json] in particular holds the same document. *)
Theorem remerge_changes_nothing (root : path) (s s1 : state) :
  (∀ d, files s !! join root ["package.json"] = Some (File (Doc d)) →
        Forall (λ v, ¬ infinite v) (kept_values d)) →
  createUniversalPackageJson root s = (inr (), s1) →
  ∃ s2 out,
    createUniversalPackageJson root s1 = (inr (), s2)
    ∧ files s2 = files s1
    ∧ files s1 !! join root ["package.json"] = Some (File (Doc out)).
Proof.
  intros Hfinite Hrun.
  apply createUniversalPackageJson_read in Hrun as (pkg & out & s0 & Hpkg & Hout & Hwrite).
  destruct (starterPkg_serialised pkg out Hout) as (out2 & Hout2 & Hsame).
  { destruct Hpkg as [Hd| ->]; [by apply Hfinite|].
    unfold kept_values. cbn [get opt_member fmap list_fmap app guarded_dependencies].
    rewrite lookup_empty. repeat constructor; by intros [neg ?]. }
  apply write_inv in Hwrite as (_ & Hroot & ->). cbn [join rev app tail] in *.
  rewrite createUniversalPackageJson_cases. cbn [files log join rev app].
  rewrite lookup_insert_eq, Hout2.
  unfold writeJSON. rewrite Hsame, write_ok; cbn [files log tail].
  - eexists _, _. split_and!; [done| |done]. cbn [files]. apply insert_insert_eq.
  - by rewrite lookup_insert_eq.
  - by rewrite lookup_insert_ne by apply cons_ne_self.
Qed.

Lemma remerge_changes_nothing_witness :
  let s := State {[ [] := Dir; ["app"] := Dir;
                    ["package.json"; "app"] :=
                      File (Doc (JObj {[ "scripts" := JObj {[ "dev" := JStr "vite" ]} ]})) ]}
                 [] in
  ∃ s2 out,
    createUniversalPackageJson ["app"] (createUniversalPackageJson ["app"] s).2 = (inr (), s2)
    ∧ files s2 = files (createUniversalPackageJson ["app"] s).2
    ∧ files (createUniversalPackageJson ["app"] s).2 !! ["package.json"; "app"] =
        Some (File (Doc out)).
Proof.
  intros s. apply (remerge_changes_nothing ["app"] s).
  - intros d Hd. vm_compute in Hd. injection Hd as <-.
    repeat constructor; intros [neg H]; vm_compute in H; discriminate H.
  - vm_compute. reflexivity.
Defined.

(** C10 as stated fails: a [name] that is a number beyond the range of a
    double is read as an infinity and kept by the first run, which writes it
    as [null]; the second run reads [null] and writes the default name. *)
Lemma remerge_after_overflow_changes_name :
  let s := State {[ [] := Dir; ["app"] := Dir;
                    ["package.json"; "app"] :=
                      File (Doc (JObj {[ "name" := JNum (NumInfinity false) ]})) ]} [] in
  let s1 := (createUniversalPackageJson ["app"] s).2 in
  let s2 := (createUniversalPackageJson ["app"] s1).2 in
  ∃ out1 out2,
    (createUniversalPackageJson ["app"] s).1 = inr ()
    ∧ (createUniversalPackageJson ["app"] s1).1 = inr ()
    ∧ files s1 !! ["package.json"; "app"] = Some (File (Doc out1))
    ∧ files s2 !! ["package.json"; "app"] = Some (File (Doc out2))
    ∧ get out1 "name" = Some JNull
    ∧ get out2 "name" = Some (JStr "ignix-universal-app")
    ∧ files s2 ≠ files s1.
Proof.
  do 2 eexists. split_and!; try (vm_compute; reflexivity).
  intros Heq. apply (f_equal (λ fs, fs !! ["package.json"; "app"])) in Heq.
  vm_compute in Heq. discriminate Heq.
Qed.

(** * Running an operation again *)

Lemma steady_idempotent m s : steady m → m (m s).2 = m s.
Proof.
  intros [Hok Herr]. destruct (m s) as [[e|[]] s'] eqn:Hrun; simpl.
  - by pose proof (Herr _ _ _ Hrun) as ->.
  - by apply Hok in Hrun.
Qed.

Lemma run_all_cons m ms s :
  run_all (m :: ms) s =
    match m s with
    | (inl e, s') => (inl e, s')
    | (inr _, s') => run_all ms s'
    end.
Proof. done. Qed.

Lemma run_all_settled ms s : Forall (λ m, settled m s) ms → run_all ms s = (inr (), s).
Proof.
  induction 1 as [|m ms Hm _ IH]; [done|].
  by rewrite run_all_cons, Hm.
Qed.

Lemma run_all_settled_app finished todo s :
  Forall (λ m, settled m s) finished → run_all (finished ++ todo) s = run_all todo s.
Proof.
  induction 1 as [|m ms Hm _ IH]; [done|].
  simpl app. by rewrite run_all_cons, Hm.
Qed.

(** Operations that are steady and keep one another settled can be run
    again as a whole: the second run ends as the first did, in the state the
    first reached. *)
Lemma run_all_again finished todo s r s' :
  Forall steady todo →
  (∀ m m', m ∈ finished ++ todo → m' ∈ todo → keeps m' m) →
  Forall (λ m, settled m s) finished →
  run_all todo s = (r, s') →
  run_all (finished ++ todo) s' = (r, s').
Proof.
  intros Hsteady. revert finished s.
  induction Hsteady as [|m todo [Hok Herr] _ IH]; intros finished s Hkeeps Hfin Hrun.
  - injection Hrun as <- <-. rewrite app_nil_r. by apply run_all_settled.
  - rewrite run_all_cons in Hrun. destruct (m s) as [[e|[]] s1] eqn:Hm.
    + injection Hrun as <- <-. pose proof (Herr _ _ _ Hm) as ->.
      by rewrite run_all_settled_app, run_all_cons, Hm.
    + rewrite (cons_middle m finished todo), (assoc_L (++)).
      apply (IH _ s1); [| |done].
      * intros m1 m2 H1 H2. apply Hkeeps; [|by right].
        by rewrite (cons_middle m finished todo), (assoc_L (++)).
      * apply Forall_app. split.
        -- apply Forall_forall. intros m1 Hin.
           rewrite Forall_forall in Hfin.
           apply (Hkeeps m1 m) with s (inr ()); [|by left|by apply Hfin|done].
           apply elem_of_app. by left.
        -- apply Forall_singleton. by apply (Hok s).
Qed.

Lemma run_all_idempotent ms s :
  Forall steady ms →
  (∀ m m', m ∈ ms → m' ∈ ms → keeps m' m) →
  run_all ms (run_all ms s).2 = run_all ms s.
Proof.
  intros Hsteady Hkeeps. destruct (run_all ms s) as [r s'] eqn:Hrun.
  by apply (run_all_again [] ms s).
Qed.

(** ** The two kinds of step *)

Lemma settled_write p c s :
  settled (write p c) s ↔
  files s !! p = Some (File c) ∧ files s !! tail p = Some Dir.
Proof.
  unfold settled. split.
  - intros (_ & Hparent & Hs)%write_inv. split; [|done].
    rewrite Hs at 1. cbn [files]. apply lookup_insert_eq.
  - intros [Hp Hparent]. rewrite write_ok by (done || by rewrite Hp).
    rewrite insert_id by done. by destruct s.
Qed.

Lemma settled_ensureDir p s : settled (ensureDir p) s ↔ files s !! p = Some Dir.
Proof.
  unfold settled. split.
  - intros (fs' & Hmk & Hs)%ensureDir_inv. rewrite Hs. cbn [files].
    by apply mkdirs_dir in Hmk.
  - apply ensureDir_fixed.
Qed.

Lemma steady_perform a : steady (perform a).
Proof.
  destruct a as [p c|p]; split; simpl.
  - intros s s' (Hp & Hparent & ->)%write_inv. apply settled_write. cbn [files].
    rewrite lookup_insert_eq. split; [done|].
    rewrite lookup_insert_ne; [done|]. intros Heq. by rewrite <-Heq in Hparent.
  - apply write_err.
  - intros s s' (fs' & Hmk & ->)%ensureDir_inv. apply settled_ensureDir.
    by apply mkdirs_dir in Hmk.
  - apply ensureDir_err.
Qed.

(** A directory stays one whatever step is taken. *)
Lemma perform_keeps_dir a s r s' q :
  perform a s = (r, s') → files s !! q = Some Dir → files s' !! q = Some Dir.
Proof.
  intros Hrun Hq. destruct r as [e|[]].
  - destruct a; simpl in Hrun; [apply write_err in Hrun|apply ensureDir_err in Hrun];
      by subst.
  - destruct a as [p c|p]; simpl in Hrun.
    + apply write_inv in Hrun as (Hp & _ & ->). cbn [files].
      rewrite lookup_insert_ne; [done|]. intros <-. by rewrite Hq in Hp.
    + apply ensureDir_inv in Hrun as (fs' & Hmk & ->). cbn [files].
      by apply (mkdirs_keeps _ _ _ _ _ Hmk).
Qed.

Lemma perform_keeps a b : agree a b → keeps (perform b) (perform a).
Proof.
  intros Hab s r s' Hset Hrun. destruct a as [p c|p].
  - apply settled_write in Hset as [Hp Hparent]. apply settled_write.
    split; [|by eapply perform_keeps_dir].
    destruct r as [e|[]].
    { destruct b; simpl in Hrun; [apply write_err in Hrun|apply ensureDir_err in Hrun];
        by subst. }
    destruct b as [q c'|q]; simpl in Hrun.
    + apply write_inv in Hrun as (_ & _ & ->). cbn [files].
      destruct (decide (q = p)) as [->|Hne].
      * rewrite lookup_insert_eq. by rewrite (Hab eq_refl).
      * by rewrite lookup_insert_ne.
    + apply ensureDir_inv in Hrun as (fs' & Hmk & ->). cbn [files].
      by apply (mkdirs_keeps _ _ _ _ _ Hmk).
  - apply settled_ensureDir in Hset. apply settled_ensureDir.
    by eapply perform_keeps_dir.
Qed.

Lemma perform_all_idempotent (acts : list action) s :
  (∀ a b, a ∈ acts → b ∈ acts → agree a b) →
  let run := run_all (perform <$> acts) in
  run (run s).2 = run s.
Proof.
  intros Hagree run. apply run_all_idempotent.
  - apply Forall_fmap, Forall_forall. intros a _. apply steady_perform.
  - intros m m' (a & -> & Ha)%list_elem_of_fmap (b & -> & Hb)%list_elem_of_fmap.
    by apply perform_keeps, Hagree.
Qed.

(** ** The static emitters as sequences of steps *)

Lemma run_all_singleton (m : io unit) s : run_all [m] s = m s.
Proof. rewrite run_all_cons. by destruct (m s) as [[e|[]] s']. Qed.

Lemma bind_run_all (m k : io unit) ms s :
  (∀ s', k s' = run_all ms s') → (_ ← m; k) s = run_all (m :: ms) s.
Proof.
  intros Hk. rewrite run_all_cons. cbv [mbind io_bind].
  destruct (m s) as [[e|[]] s']; [done|apply Hk].
Qed.

Lemma run_operation_static o root s :
  o ≠ PackageJson →
  run_operation o root s = run_all (perform <$> static_steps o root) s.
Proof.
  intros Ho. destruct o; try done; try (symmetry; apply run_all_singleton).
  cbn [run_operation static_steps fmap list_fmap perform].
  unfold createUniversalSrcStructure. cbn zeta.
  do 6 (apply bind_run_all; intros ?).
  symmetry. apply run_all_singleton.
Qed.

Lemma static_steps_agree o root a b :
  a ∈ static_steps o root → b ∈ static_steps o root → agree a b.
Proof.
  destruct o; cbn [static_steps join rev app];
    rewrite ?elem_of_cons, ?elem_of_nil; intros Ha Hb;
    destruct_or!; subst; simpl; done.
Qed.

(** C7: every static emitter can be run twice in a row: the second run ends
    as the first did (it returns, or throws the same error) and leaves the
    state the first run left, so every file holds the content it held after
    one run. *)
Theorem static_emitters_idempotent :
  Forall (λ o, ∀ (root : path) (s : state),
            run_operation o root (run_operation o root s).2 = run_operation o root s)
         static_emitters.
Proof.
  apply Forall_forall. intros o Ho root s.
  assert (o ≠ PackageJson) as Hstatic.
  { intros ->. revert Ho. unfold static_emitters.
    rewrite !elem_of_cons, elem_of_nil. intros ?. destruct_or!; done. }
  rewrite (run_operation_static o root s Hstatic).
  rewrite run_operation_static by done.
  apply perform_all_idempotent, static_steps_agree.
Qed.

(** * What a full run leaves under the root *)

Section scaffolding.
Context (root : path) (fs0 : gmap path node).
Implicit Types (fs : gmap path node) (rel : path) (s : state).

Lemma below_ne_root rel : rel ≠ [] → rel ++ root ≠ root.
Proof.
  intros Hrel H. apply (f_equal length) in H. rewrite length_app in H.
  destruct rel; [done|]. simpl in H. lia.
Qed.

Lemma scaffolding_insert fs x rel n :
  scaffolding root fs0 fs →
  expected_tree !! (x :: rel) = Some n →
  fs !! (rel ++ root) = Some Dir →
  scaffolding root fs0 (<[x :: rel ++ root := n]> fs)
  ∧ fs ⊆ <[x :: rel ++ root := n]> fs.
Proof.
  intros [Hroot Hin Hpar Hout] Hn Hdir.
  assert (∀ v, fs !! (x :: rel ++ root) = Some v → v = n) as Hsame.
  { intros v Hv. destruct (Hin (x :: rel)) as [Hnone|Hsome]; [done|..];
      cbn [app] in *; congruence. }
  split; [split|].
  - by rewrite lookup_insert_ne by by apply (below_ne_root (x :: rel)).
  - intros rel' Hrel'. destruct (decide (rel' = x :: rel)) as [->|Hne].
    + right. cbn [app]. by rewrite lookup_insert_eq.
    + rewrite lookup_insert_ne; [by apply Hin|].
      intros Heq. by apply (app_inv_tail root (x :: rel)) in Heq.
  - intros y rel' Hsome.
    assert (fs !! (rel' ++ root) = Some Dir) as Hd.
    { destruct (decide (y :: rel' ++ root = x :: rel ++ root)) as [Heq|Hne].
      - injection Heq as -> Heq. by rewrite Heq.
      - rewrite lookup_insert_ne in Hsome by done. by apply (Hpar y). }
    destruct (decide (rel' ++ root = x :: rel ++ root)) as [Heq|Hne].
    + rewrite Heq, lookup_insert_eq. rewrite Heq in Hd. by rewrite (Hsame _ Hd).
    + by rewrite lookup_insert_ne.
  - intros p Hp. rewrite lookup_insert_ne; [by apply Hout|].
    intros <-. apply Hp. by exists (x :: rel).
  - apply map_subseteq_spec. intros p v Hv.
    destruct (decide (p = x :: rel ++ root)) as [->|Hne].
    + by rewrite lookup_insert_eq, (Hsame _ Hv).
    + by rewrite lookup_insert_ne.
Qed.

Lemma write_step s x rel c :
  scaffolding root fs0 (files s) →
  expected_tree !! (x :: rel) = Some (File c) →
  files s !! (rel ++ root) = Some Dir →
  ∃ s', write (x :: rel ++ root) c s = (inr (), s')
        ∧ scaffolding root fs0 (files s') ∧ files s ⊆ files s'
        ∧ is_Some (files s' !! (x :: rel ++ root))
        ∧ log s' = log s.
Proof.
  intros Hs Hc Hparent. eexists. split; [apply write_ok; [|done]|].
  - destruct (scaffolding_inside _ _ _ Hs (x :: rel)) as [Hl|Hl]; [done|..];
      cbn [app] in Hl; rewrite Hl; [done|by rewrite Hc].
  - cbn [files log].
    destruct (scaffolding_insert (files s) x rel (File c)) as [? ?]; [done..|].
    split_and!; [done..| |done]. by rewrite lookup_insert_eq.
Qed.

Lemma mkdirs_step fs rel :
  scaffolding root fs0 fs →
  Forall (λ r, expected_tree !! r = Some Dir) (ancestors rel) →
  ∃ fs', mkdirs (rel ++ root) fs = inr fs'
         ∧ scaffolding root fs0 fs' ∧ fs ⊆ fs'
         ∧ fs' !! (rel ++ root) = Some Dir.
Proof.
  intros Hs. induction rel as [|x rel IH]; intros Hdirs.
  - exists fs. split_and!; [|done..|apply Hs].
    apply mkdirs_fixed, Hs.
  - apply Forall_cons in Hdirs as [Hdir Hdirs].
    destruct (scaffolding_inside _ _ _ Hs (x :: rel)) as [Hnone|Hsome]; [done|..];
      cbn [app mkdirs ancestors] in *.
    + destruct (IH Hdirs) as (fs1 & Hmk & Hs1 & Hsub & Hparent).
      exists (<[x :: rel ++ root := Dir]> fs1).
      destruct (scaffolding_insert fs1 x rel Dir) as [? Hsub1]; [done..|].
      split_and!; [|done|by trans fs1|by rewrite lookup_insert_eq].
      by rewrite Hnone, Hmk.
    + exists fs. rewrite Hdir in Hsome. rewrite Hsome. by split_and!.
Qed.

Lemma ensureDir_step s rel :
  scaffolding root fs0 (files s) →
  Forall (λ r, expected_tree !! r = Some Dir) (ancestors rel) →
  ∃ s', ensureDir (rel ++ root) s = (inr (), s')
        ∧ scaffolding root fs0 (files s') ∧ files s ⊆ files s'
        ∧ files s' !! (rel ++ root) = Some Dir
        ∧ log s' = log s.
Proof.
  intros Hs Hdirs. destruct (mkdirs_step _ rel Hs Hdirs) as (fs' & Hmk & ? & ? & ?).
  exists (State fs' (log s)). unfold ensureDir. by rewrite Hmk.
Qed.
End scaffolding.

(** ** Every operation, on a root that is being scaffolded *)

Lemma run_all_returns m ms s s' :
  m s = (inr (), s') → run_all (m :: ms) s = run_all ms s'.
Proof. intros H. by rewrite run_all_cons, H. Qed.

Section operations.
Context (root : path) (fs0 : gmap path node).
Implicit Types (s : state) (o : operation).

(** An operation that only writes one file into the root. *)
Lemma write_root_step s x c :
  scaffolding root fs0 (files s) →
  expected_tree !! [x] = Some (File c) →
  ∃ s', write (x :: root) c s = (inr (), s')
        ∧ scaffolding root fs0 (files s') ∧ files s ⊆ files s'
        ∧ Forall (λ rel, is_Some (files s' !! (rel ++ root))) [[x]].
Proof.
  intros Hs Hc.
  destruct (write_step root fs0 s x [] c) as (s' & ? & ? & ? & ? & _);
    [done..|apply Hs|].
  exists s'. split_and!; [done..|]. by apply Forall_singleton.
Qed.

Lemma createUniversalPackageJson_step s :
  scaffolding root fs0 (files s) →
  ∃ s', createUniversalPackageJson root s = (inr (), s')
        ∧ scaffolding root fs0 (files s') ∧ files s ⊆ files s'
        ∧ Forall (λ rel, is_Some (files s' !! (rel ++ root))) (creates PackageJson).
Proof.
  intros Hs. rewrite createUniversalPackageJson_cases. cbn [join rev app].
  destruct (scaffolding_inside _ _ _ Hs ["package.json"]) as [Hl|Hl]; [done|..];
    cbn [app] in Hl; rewrite Hl.
  - by apply write_root_step.
  - change (expected_tree !! ["package.json"])
      with (Some (File (Doc default_manifest))).
    cbv beta iota zeta. rewrite starterPkg_default.
    by apply (write_root_step (State (files s) _)).
Qed.

Lemma createUniversalSrcStructure_step s :
  scaffolding root fs0 (files s) →
  ∃ s', createUniversalSrcStructure root s = (inr (), s')
        ∧ scaffolding root fs0 (files s') ∧ files s ⊆ files s'
        ∧ Forall (λ rel, is_Some (files s' !! (rel ++ root))) (creates SrcStructure).
Proof.
  intros Hs.
  change (createUniversalSrcStructure root s) with (run_operation SrcStructure root s).
  rewrite run_operation_static by done.
  cbn [static_steps fmap list_fmap perform join rev app].
  destruct (ensureDir_step root fs0 s ["components"; "src"])
    as (s1 & Hrun1 & Hs1 & Hsub1 & Hcomponents & _);
    [done|by repeat constructor|].
  destruct (ensureDir_step root fs0 s1 ["pages"; "src"])
    as (s2 & Hrun2 & Hs2 & Hsub2 & Hpages & _);
    [done|by repeat constructor|].
  destruct (ensureDir_step root fs0 s2 ["styles"; "src"])
    as (s3 & Hrun3 & Hs3 & Hsub3 & Hstyles & _);
    [done|by repeat constructor|].
  destruct (ensureDir_step root fs0 s3 ["dist"])
    as (s4 & Hrun4 & Hs4 & Hsub4 & Hdist & _);
    [done|by repeat constructor|].
  assert (files s4 !! (["components"; "src"] ++ root) = Some Dir) as Hcomponents4
    by eauto using lookup_weaken.
  assert (files s4 !! (["pages"; "src"] ++ root) = Some Dir) as Hpages4
    by eauto using lookup_weaken.
  assert (files s4 !! (["styles"; "src"] ++ root) = Some Dir) as Hstyles4
    by eauto using lookup_weaken.
  destruct (write_step root fs0 s4 "UiShell.tsx" ["components"; "src"] (Text uiShell))
    as (s5 & Hrun5 & Hs5 & Hsub5 & [n5 HuiShell] & _); [done..|].
  destruct (write_step root fs0 s5 "index.tsx" ["pages"; "src"] (Text pageContent))
    as (s6 & Hrun6 & Hs6 & Hsub6 & [n6 Hpage] & _);
    [done|done|by eauto using lookup_weaken|].
  destruct (write_step root fs0 s6 "index.css" ["styles"; "src"] (Text styles))
    as (s7 & Hrun7 & Hs7 & Hsub7 & [n7 Hcss] & _);
    [done|done|by eauto using lookup_weaken|].
  cbn [app] in *. exists s7.
  rewrite (run_all_returns _ _ _ _ Hrun1), (run_all_returns _ _ _ _ Hrun2),
    (run_all_returns _ _ _ _ Hrun3), (run_all_returns _ _ _ _ Hrun4),
    (run_all_returns _ _ _ _ Hrun5), (run_all_returns _ _ _ _ Hrun6),
    (run_all_returns _ _ _ _ Hrun7).
  split_and!; [done..|by repeat (etrans; [eassumption|])|].
  assert (files s4 ⊆ files s7) as Hsub47 by by repeat (etrans; [eassumption|]).
  cbn [creates join rev app]. repeat apply Forall_cons_2; [..|constructor];
    cbn [app]; eauto 8 using lookup_weaken.
  exists Dir. apply (scaffolding_parent _ _ _ Hs7 "components" ["src"]).
  eauto using lookup_weaken.
Qed.

Lemma operation_step o s :
  scaffolding root fs0 (files s) →
  ∃ s', run_operation o root s = (inr (), s')
        ∧ scaffolding root fs0 (files s') ∧ files s ⊆ files s'
        ∧ Forall (λ rel, is_Some (files s' !! (rel ++ root))) (creates o).
Proof.
  intros Hs. destruct o;
    [by apply createUniversalPackageJson_step| | | | | |
     by apply createUniversalSrcStructure_step| |];
    by apply write_root_step.
Qed.

Lemma operations_step (ops : list operation) s :
  scaffolding root fs0 (files s) →
  ∃ s', run_all ((λ o, run_operation o root) <$> ops) s = (inr (), s')
        ∧ scaffolding root fs0 (files s') ∧ files s ⊆ files s'
        ∧ ∀ o rel, o ∈ ops → rel ∈ creates o → is_Some (files s' !! (rel ++ root)).
Proof.
  revert s. induction ops as [|o ops IH]; intros s Hs.
  - exists s. split_and!; [done..|]. intros o rel Ho. by apply elem_of_nil in Ho.
  - destruct (operation_step o s Hs) as (s1 & Hrun1 & Hs1 & Hsub1 & Hcreated).
    destruct (IH s1 Hs1) as (s' & Hrun & Hs' & Hsub & Hall).
    exists s'. cbn [fmap list_fmap]. rewrite run_all_cons, Hrun1.
    split_and!; [done..|by trans (files s1)|].
    intros o' rel [->|Ho']%elem_of_cons Hrel; [|by eapply Hall].
    rewrite Forall_forall in Hcreated.
    destruct (Hcreated rel Hrel) as [n Hn]. exists n. by eapply lookup_weaken.
Qed.
End operations.

Lemma expected_created rel :
  is_Some (expected_tree !! rel) → ∃ o, rel ∈ creates o.
Proof.
  intros [n Hn]. apply elem_of_list_to_map_2 in Hn.
  cbn [artifact_files artifact_directories fmap list_fmap app fst snd join rev] in Hn.
  rewrite !elem_of_cons, elem_of_nil in Hn.
  destruct_or!; try done; injection Hn as -> _;
    [exists PackageJson|exists Tsconfig|exists TailwindConfig|exists PostCSSConfig
    |exists EslintConfig|exists IgnixConfig|exists SrcStructure|exists SrcStructure
    |exists SrcStructure|exists Gitignore|exists Readme|exists SrcStructure
    |exists SrcStructure|exists SrcStructure|exists SrcStructure|exists SrcStructure];
    cbn [creates join rev app]; rewrite !elem_of_cons; tauto.
Qed.

(** C9 (as amended): on a root that is a directory with nothing below it,
    the nine operations, each run once and in any order, all return, and
    below the root there is then exactly the expected tree: the eleven files
    with their contents and five directories, the four asked for and their
    parent [src].  The root stays a directory and nothing outside it
    changes. *)
Theorem full_run_leaves_expected_tree (ops : list operation) (root : path) (s : state) :
  ops ≡ₚ operations →
  files s !! root = Some Dir →
  (∀ rel, rel ≠ [] → files s !! (rel ++ root) = None) →
  ∃ s',
    run_all ((λ o, run_operation o root) <$> ops) s = (inr (), s')
    ∧ (∀ rel, rel ≠ [] → files s' !! (rel ++ root) = expected_tree !! rel)
    ∧ files s' !! root = Some Dir
    ∧ (∀ p, ¬ root `suffix_of` p → files s' !! p = files s !! p).
Proof.
  intros Hops Hroot Hempty.
  assert (scaffolding root (files s) (files s)) as Hs.
  { split; [done| |..|done].
    - intros rel Hrel. left. by apply Hempty.
    - intros x rel [n Hn]. pose proof (Hempty (x :: rel) ltac:(done)) as He.
      cbn [app] in He. congruence. }
  destruct (operations_step root (files s) ops s Hs) as (s' & Hrun & Hs' & _ & Hall).
  exists s'. split_and!; [done| |apply Hs'|apply Hs'].
  intros rel Hrel. destruct (expected_tree !! rel) as [n|] eqn:Hn.
  - destruct (expected_created rel) as [o Ho]; [by rewrite Hn|].
    assert (o ∈ ops) as Hin.
    { rewrite Hops. unfold operations. destruct o; rewrite !elem_of_cons; tauto. }
    destruct (Hall o rel Hin Ho) as [n' Hn'].
    destruct (scaffolding_inside _ _ _ Hs' rel Hrel); congruence.
  - destruct (scaffolding_inside _ _ _ Hs' rel Hrel); congruence.
Qed.

Lemma full_run_leaves_expected_tree_witness :
  let s := State {[ [] := Dir; ["app"] := Dir ]} [] in
  ∃ s',
    run_all ((λ o, run_operation o ["app"]) <$> operations) s = (inr (), s')
    ∧ (∀ rel, rel ≠ [] → files s' !! (rel ++ ["app"]) = expected_tree !! rel)
    ∧ files s' !! ["app"] = Some Dir
    ∧ (∀ p, ¬ ["app"] `suffix_of` p → files s' !! p = files s !! p).
Proof.
  intros s. apply (full_run_leaves_expected_tree operations ["app"] s).
  - reflexivity.
  - reflexivity.
  - intros rel Hrel. subst s. cbn [files].
    rewrite lookup_insert_ne by (intros H; by destruct rel).
    apply lookup_singleton_ne. intros H. apply (f_equal length) in H.
    rewrite length_app in H. destruct rel; simpl in H; [done|lia].
Defined.

(** C9 as stated fails: after the nine operations the directory [src] exists
    below the root although it is not one of the four the claim names, and
    the regular files below the root are eleven, not ten. *)
Lemma full_run_also_creates_src :
  let s := State {[ [] := Dir; ["app"] := Dir ]} [] in
  let s' := (run_all ((λ o, run_operation o ["app"]) <$> operations) s).2 in
  files s' !! join ["app"] ["src"] = Some Dir
  ∧ (join [] ["src"] ∉ claimed_files ++ claimed_directories)
  ∧ length (List.filter (λ pn, is_file pn.2) (map_to_list (files s'))) = 11.
Proof.
  split_and!.
  - vm_compute. reflexivity.
  - apply (bool_decide_unpack _). by vm_compute.
  - vm_compute. reflexivity.
Qed.

(** * Further properties of the merge *)

Lemma object_literal_is_Some (base : gmap string json) props k :
  is_Some (object_literal base props !! k) ↔ k ∈ props.*1 ∨ is_Some (base !! k).
Proof.
  rewrite object_literal_union, lookup_union_is_Some.
  assert (is_Some (list_to_map (M := gmap string json) (reverse props) !! k) ↔ k ∈ props.*1)
    as ->; [|done].
  split.
  - intros [v Hv]. apply elem_of_list_to_map_2 in Hv.
    rewrite elem_of_reverse in Hv.
    apply (list_elem_of_fmap_2 fst) in Hv. exact Hv.
  - intros Hin. destruct (list_to_map (reverse props) !! k) eqn:Hk; [by eexists|].
    apply not_elem_of_list_to_map in Hk.
    by rewrite fmap_reverse, elem_of_reverse in Hk.
Qed.

Lemma starterPkg_throws pkg e : starterPkg pkg = inl e ↔ pkg = JNull ∧ e = TypeError.
Proof.
  split.
  - destruct pkg; try done. by intros [= <-].
  - by intros [-> ->].
Qed.

(** X3: whatever the existing manifest holds, the five scripts and the eleven
    development packages the starter sets have the starter's values in the
    merged manifest. *)
Theorem starter_entries_forced (pkg out : json) (k : string) :
  starterPkg pkg = inr out →
  (k ∈ fixed_scripts →
   nested out "scripts" k = nested default_manifest "scripts" k)
  ∧ (k ∈ fixed_devDependencies →
     nested out "devDependencies" k = nested default_manifest "devDependencies" k).
Proof.
  intros [_ ->]%starterPkg_inv. unfold nested.
  rewrite get_scripts, get_devDependencies. cbn [mbind option_bind get].
  unfold fixed_scripts, fixed_devDependencies. rewrite !elem_of_cons, !elem_of_nil.
  split; intros ?; destruct_or!; try done; subst;
    unfold starter_scripts, starter_devDependencies; by literal_lookup.
Qed.

Lemma starter_entries_forced_witness :
  ∃ out,
    starterPkg (JObj {[ "scripts" := JObj {[ "lint" := JStr "biome lint" ]} ]}) = inr out
    ∧ nested out "scripts" "lint" = nested default_manifest "scripts" "lint".
Proof.
  eexists. split; [reflexivity|].
  apply (starter_entries_forced
           (JObj {[ "scripts" := JObj {[ "lint" := JStr "biome lint" ]} ]})).
  - reflexivity.
  - apply (bool_decide_unpack _). by vm_compute.
Defined.

(** X4: the merged manifest never holds a falsy value where the merge falls
    back to a default: [name], [version], [type], [scripts.dev] and the five
    guarded dependencies are truthy, and [private] is not [null]. *)
Theorem merged_values_truthy (pkg out : json) :
  starterPkg pkg = inr out →
  (∀ f, f ∈ ["name"; "version"; "type"] → ∃ v, get out f = Some v ∧ truthy v = true)
  ∧ (∃ v, get out "private" = Some v ∧ v ≠ JNull)
  ∧ (∃ v, nested out "scripts" "dev" = Some v ∧ truthy v = true)
  ∧ (∀ k, k ∈ guarded_dependencies →
       ∃ v, nested out "dependencies" k = Some v ∧ truthy v = true).
Proof.
  intros [_ ->]%starterPkg_inv. split_and!.
  - intros f. rewrite !elem_of_cons, elem_of_nil. intros ?.
    destruct_or!; try done; subst;
      rewrite ?get_name, ?get_version, ?get_type; eexists; (split; [done|]);
      by apply js_or_truthy.
  - rewrite get_private. eexists. split; [done|].
    by destruct (get pkg "private") as [[]|].
  - unfold nested. rewrite get_scripts. cbn [mbind option_bind get].
    rewrite starter_scripts_dev. eexists. split; [done|]. by apply js_or_truthy.
  - intros k Hk. unfold nested. rewrite get_dependencies. cbn [mbind option_bind get].
    destruct (starter_dependencies_guarded (get pkg "dependencies") k Hk)
      as (range & -> & Hrange).
    eexists. split; [done|]. apply js_or_truthy. simpl. by case_bool_decide.
Qed.

Lemma merged_values_truthy_witness :
  ∃ v, nested (starter_literal (Some (JStr "")) None None None
                 (Some (JObj {[ "dev" := JStr "" ]})) None None) "scripts" "dev" = Some v
       ∧ truthy v = true.
Proof.
  apply (merged_values_truthy
           (JObj {[ "name" := JStr ""; "scripts" := JObj {[ "dev" := JStr "" ]} ]})).
  reflexivity.
Defined.

(** X5: the merge removes no entry of a nested mapping and adds only its
    own: a name is in the merged mapping exactly when it is in the existing
    one or is one the starter sets there. *)
Theorem nested_names_kept_and_added (existing m : gmap string json) (field k : string) :
  field ∈ nested_fields →
  existing !! field = Some (JObj m) →
  ∃ out,
    starterPkg (JObj existing) = inr out
    ∧ (is_Some (nested out field k) ↔ is_Some (m !! k) ∨ k ∈ starter_names field).
Proof.
  intros Hfield Hm. eexists. split; [by apply starterPkg_not_null|].
  unfold nested. cbn [get]. revert Hfield. unfold nested_fields.
  rewrite !elem_of_cons, elem_of_nil. intros ?. destruct_or!; try done; subst;
    rewrite ?get_scripts, ?get_dependencies, ?get_devDependencies, Hm;
    cbn [mbind option_bind get];
    unfold starter_scripts, starter_dependencies, starter_devDependencies;
    rewrite object_literal_is_Some; cbn [spread js_or truthy fmap list_fmap fst];
    unfold starter_names; repeat (case_decide; try done); tauto.
Qed.

Lemma nested_names_kept_and_added_witness :
  ∃ out,
    starterPkg (JObj {[ "scripts" := JObj {[ "test" := JStr "vitest" ]} ]}) = inr out
    ∧ (is_Some (nested out "scripts" "test")
       ↔ is_Some (({[ "test" := JStr "vitest" ]} : gmap string json) !! "test")
         ∨ "test" ∈ starter_names "scripts").
Proof.
  apply (nested_names_kept_and_added _ {[ "test" := JStr "vitest" ]}).
  - apply (bool_decide_unpack _). by vm_compute.
  - reflexivity.
Defined.

(** X6: a nested field that is missing, [null], a boolean or a number is
    replaced by the starter's own mapping, the one of the default
    manifest. *)
Theorem empty_nested_field_gets_defaults (existing : gmap string json) (field : string) :
  field ∈ nested_fields →
  no_properties (existing !! field) →
  ∃ out,
    starterPkg (JObj existing) = inr out
    ∧ get out field = get default_manifest field.
Proof.
  intros Hfield Hnone. eexists. split; [by apply starterPkg_not_null|].
  cbn [get]. revert Hfield Hnone. unfold nested_fields.
  rewrite !elem_of_cons, elem_of_nil. intros ?. destruct_or!; try done; subst;
    rewrite ?get_scripts, ?get_dependencies, ?get_devDependencies;
    (destruct (existing !! _) as [[| [] | [] | | |]|]; try done); intros _;
    vm_compute; reflexivity.
Qed.

Lemma empty_nested_field_gets_defaults_witness :
  ∃ out,
    starterPkg (JObj {[ "dependencies" := JNull ]}) = inr out
    ∧ get out "dependencies" = get default_manifest "dependencies".
Proof.
  apply (empty_nested_field_gets_defaults {[ "dependencies" := JNull ]}).
  - apply (bool_decide_unpack _). by vm_compute.
  - exact I.
Defined.

(** * Further properties of the merge on the file system *)

(** X1: the merge of a [package.json] that parses throws a [TypeError]
    exactly when the document is [null]; the note that the file was found is
    logged by then and no file is touched. *)
Theorem null_manifest_throws (root : path) (s : state) (d : json) :
  files s !! join root ["package.json"] = Some (File (Doc d)) →
  ((createUniversalPackageJson root s).1 = inl TypeError ↔ d = JNull)
  ∧ (d = JNull →
     createUniversalPackageJson root s =
       (inl TypeError, State (files s) (log s ++ [(Info, found_message)]))).
Proof.
  intros Hd. rewrite createUniversalPackageJson_cases. cbn zeta. rewrite Hd.
  split; [split|].
  - destruct (starterPkg d) as [e|out] eqn:Hout.
    + apply starterPkg_throws in Hout as [-> _]. done.
    + unfold writeJSON, write. cbn [files log].
      destruct (files s !! join root ["package.json"]) as [[|?]|];
        destruct (files s !! tail (join root ["package.json"])) as [[|?]|];
        try destruct (file_on_the_way _ _); done.
  - by intros ->.
  - by intros ->.
Qed.

Lemma null_manifest_throws_witness :
  let s := State {[ [] := Dir; ["app"] := Dir;
                    ["package.json"; "app"] := File (Doc JNull) ]} [] in
  createUniversalPackageJson ["app"] s =
    (inl TypeError, State (files s) [(Info, found_message)]).
Proof.
  intros s. apply (null_manifest_throws ["app"] s JNull); reflexivity.
Defined.

(** X2: a [package.json] whose document is a boolean, a number, a string or
    an array is merged as if it were an empty object: with the root a
    directory, the file is replaced by the default manifest and the merge
    logs that it found the file. *)
Theorem non_object_manifest_replaced (root : path) (s : state) (d : json) :
  files s !! join root ["package.json"] = Some (File (Doc d)) →
  primitive_or_array d →
  files s !! root = Some Dir →
  createUniversalPackageJson root s =
    (inr (),
     State (<[join root ["package.json"] := File (Doc default_manifest)]> (files s))
           (log s ++ [(Info, found_message)])).
Proof.
  intros Hd Hprim Hroot. rewrite createUniversalPackageJson_cases. cbn zeta.
  rewrite Hd.
  assert (starterPkg d = inr default_manifest) as ->.
  { destruct d; try done; rewrite starterPkg_not_null by done;
      rewrite <-starterPkg_empty; by rewrite starterPkg_not_null. }
  apply write_ok; cbn [files]; [by rewrite Hd|done].
Qed.

Lemma non_object_manifest_replaced_witness :
  let s := State {[ [] := Dir; ["app"] := Dir;
                    ["package.json"; "app"] := File (Doc (JArr [JStr "foo"])) ]} [] in
  createUniversalPackageJson ["app"] s =
    (inr (),
     State (<[ ["package.json"; "app"] := File (Doc default_manifest)]> (files s))
           [(Info, found_message)]).
Proof.
  intros s. apply (non_object_manifest_replaced ["app"] s (JArr [JStr "foo"]));
    [reflexivity|exact I|reflexivity].
Defined.

Lemma write_frame p c s q : q ≠ p → files (write p c s).2 !! q = files s !! q.
Proof.
  intros Hq. unfold write.
  destruct (files s !! p) as [[|?]|]; [done|..];
    destruct (files s !! tail p) as [[|?]|]; try done;
    cbn [snd files]; by rewrite lookup_insert_ne.
Qed.

Lemma write_log p c s : log (write p c s).2 = log s.
Proof.
  unfold write.
  destruct (files s !! p) as [[|?]|]; [done|..];
    by destruct (files s !! tail p) as [[|?]|].
Qed.

(** X7: whether it returns or throws, the merge touches no path but that of
    [package.json]. *)
Theorem merge_touches_only_manifest (root : path) (s : state) (p : path) :
  p ≠ join root ["package.json"] →
  files (createUniversalPackageJson root s).2 !! p = files s !! p.
Proof.
  intros Hp. rewrite createUniversalPackageJson_cases. cbn zeta.
  destruct (files s !! join root ["package.json"]) as [[|[d|text]]|];
    [|destruct (starterPkg d); [done|]|..];
    unfold writeJSON; by rewrite write_frame.
Qed.

Lemma merge_touches_only_manifest_witness :
  let s := State {[ [] := Dir; ["app"] := Dir;
                    ["README.md"; "app"] := File (Text "mine") ]} [] in
  files (createUniversalPackageJson ["app"] s).2 !! ["README.md"; "app"] =
    Some (File (Text "mine")).
Proof.
  intros s. apply (merge_touches_only_manifest ["app"] s ["README.md"; "app"]).
  by intros [=].
Defined.

(** X8: what the merge logs depends only on what is at the path of the
    manifest, and is logged whether the merge then returns or throws: one
    note when a document is read, one warning when something is there that
    does not parse (a directory included), nothing when nothing is there. *)
Theorem merge_logs_what_it_finds (root : path) (s : state) :
  log (createUniversalPackageJson root s).2 =
    log s ++ merge_log (files s !! join root ["package.json"]).
Proof.
  rewrite createUniversalPackageJson_cases. cbn zeta.
  destruct (files s !! join root ["package.json"]) as [[|[d|text]]|];
    [|destruct (starterPkg d); [done|]|..];
    unfold writeJSON; rewrite write_log; cbn [log merge_log];
    by rewrite ?app_nil_r.
Qed.

(** X9: when the path of the manifest is a directory, the merge logs the
    warning and then throws, leaving the files as they are. *)
Theorem directory_manifest_throws (root : path) (s : state) :
  files s !! join root ["package.json"] = Some Dir →
  createUniversalPackageJson root s =
    (inl EISDIR, State (files s) (log s ++ [(Warn, unparsable_message)])).
Proof.
  intros Hdir. rewrite createUniversalPackageJson_cases. cbn zeta. rewrite Hdir.
  unfold writeJSON, write. cbn [files]. by rewrite Hdir.
Qed.

Lemma directory_manifest_throws_witness :
  let s := State {[ [] := Dir; ["app"] := Dir; ["package.json"; "app"] := Dir ]} [] in
  createUniversalPackageJson ["app"] s =
    (inl EISDIR, State (files s) [(Warn, unparsable_message)]).
Proof.
  intros s. apply (directory_manifest_throws ["app"] s). reflexivity.
Defined.

(** * Further properties of the static emitters *)

(** X10: each of the seven operations that write one file replaces whatever
    regular file is at its path: with the root a directory and no directory
    at the path, it returns, the file holds the fixed content, nothing else
    changes and nothing is logged. *)
Theorem single_file_emitter_overwrites (o : operation) (name : string) (c : content)
    (root : path) (s : state) :
  (o, name, c) ∈ single_file_artifacts →
  files s !! root = Some Dir →
  files s !! join root [name] ≠ Some Dir →
  run_operation o root s =
    (inr (), State (<[join root [name] := File c]> (files s)) (log s)).
Proof.
  unfold single_file_artifacts. rewrite !elem_of_cons, elem_of_nil.
  intros Hin Hroot Htarget.
  destruct_or!; try done; injection Hin as -> -> ->; by apply write_ok.
Qed.

Lemma single_file_emitter_overwrites_witness :
  let s := State {[ [] := Dir; ["app"] := Dir;
                    ["tsconfig.json"; "app"] := File (Text "{ mine }") ]} [] in
  run_operation Tsconfig ["app"] s =
    (inr (), State (<[ ["tsconfig.json"; "app"] := File (Doc tsconfig)]> (files s)) []).
Proof.
  intros s.
  apply (single_file_emitter_overwrites Tsconfig "tsconfig.json" (Doc tsconfig) ["app"] s).
  - apply list_elem_of_here.
  - reflexivity.
  - vm_compute. intros H. discriminate H.
Defined.

(** X11: no operation but [createUniversalSrcStructure] makes the root: when
    there is nothing at the root nor directly below it, each of the other
    eight throws and leaves the state as it is; the error is [ENOTDIR] when a
    regular file lies on the way to the root and [ENOENT] when the root is
    merely missing. *)
Theorem missing_root_is_not_created (o : operation) (root : path) (s : state) :
  o ≠ SrcStructure →
  files s !! root = None →
  (∀ name, files s !! join root [name] = None) →
  run_operation o root s =
    (inl (if file_on_the_way root (files s) then ENOTDIR else ENOENT), s).
Proof.
  intros Ho Hroot Hbelow.
  assert (∀ name c, write (join root [name]) c s =
            (inl (if file_on_the_way root (files s) then ENOTDIR else ENOENT), s))
    as Hwrite.
  { intros name c. unfold write. rewrite Hbelow. cbn [join rev app tail].
    by rewrite Hroot. }
  destruct o; try done; try apply Hwrite.
  cbn [run_operation]. rewrite createUniversalPackageJson_cases. cbn zeta.
  rewrite Hbelow. apply Hwrite.
Qed.

Lemma missing_root_is_not_created_witness :
  run_operation Readme ["app"] (State {[ [] := Dir ]} []) =
    (inl ENOENT, State {[ [] := Dir ]} [])
  ∧ run_operation Tsconfig ["sub"; "app"]
      (State {[ [] := Dir; ["app"] := File (Text "a file") ]} []) =
    (inl ENOTDIR, State {[ [] := Dir; ["app"] := File (Text "a file") ]} []).
Proof.
  split.
  - change ENOENT with
      (if file_on_the_way ["app"] (files (State {[ [] := Dir ]} []))
       then ENOTDIR else ENOENT).
    apply (missing_root_is_not_created Readme ["app"] (State {[ [] := Dir ]} [])).
    + intros H. discriminate H.
    + reflexivity.
    + intros name. apply lookup_singleton_ne. intros H. discriminate H.
  - change ENOTDIR with
      (if file_on_the_way ["sub"; "app"]
            (files (State {[ [] := Dir; ["app"] := File (Text "a file") ]} []))
       then ENOTDIR else ENOENT).
    apply (missing_root_is_not_created Tsconfig ["sub"; "app"]
             (State {[ [] := Dir; ["app"] := File (Text "a file") ]} [])).
    + intros H. discriminate H.
    + reflexivity.
    + intros name. cbn [files join rev app].
      rewrite lookup_insert_ne by (intros H; discriminate H).
      apply lookup_singleton_ne. intros H. discriminate H.
Defined.

Lemma perform_keeps_entry a s p n :
  files s !! p = Some n → (∀ c, a ≠ Write p c) →
  files (perform a s).2 !! p = Some n.
Proof.
  intros Hp Ha. destruct (perform a s) as [[e|[]] s'] eqn:Hrun; cbn [snd].
  - destruct a; simpl in Hrun; [apply write_err in Hrun|apply ensureDir_err in Hrun];
      by subst.
  - destruct a as [q c|q]; simpl in Hrun.
    + apply write_inv in Hrun as (_ & _ & ->). cbn [files].
      rewrite lookup_insert_ne; [done|]. intros ->. by apply (Ha c).
    + apply ensureDir_inv in Hrun as (fs' & Hmk & ->). cbn [files].
      by apply (mkdirs_keeps _ _ _ _ _ Hmk).
Qed.

Lemma perform_log a s : log (perform a s).2 = log s.
Proof.
  destruct a as [p c|p]; simpl; [apply write_log|].
  unfold ensureDir. by destruct (mkdirs p (files s)).
Qed.

Lemma run_all_perform_keeps_entry (acts : list action) s p n :
  files s !! p = Some n → (∀ c, Write p c ∉ acts) →
  files (run_all (perform <$> acts) s).2 !! p = Some n.
Proof.
  revert s. induction acts as [|a acts IH]; intros s Hp Hacts; [done|].
  cbn [fmap list_fmap]. rewrite run_all_cons.
  pose proof (perform_keeps_entry a s p n Hp) as Hkeep.
  destruct (perform a s) as [[e|[]] s'] eqn:Hrun; cbn [snd] in *.
  - apply Hkeep. intros c ->. apply (Hacts c). by left.
  - apply IH.
    + apply Hkeep. intros c ->. apply (Hacts c). by left.
    + intros c Hc. apply (Hacts c). by right.
Qed.

Lemma run_all_perform_log (acts : list action) s :
  log (run_all (perform <$> acts) s).2 = log s.
Proof.
  revert s. induction acts as [|a acts IH]; intros s; [done|].
  cbn [fmap list_fmap]. rewrite run_all_cons.
  pose proof (perform_log a s) as Hlog.
  destruct (perform a s) as [[e|[]] s'] eqn:Hrun; cbn [snd] in *; [done|].
  by rewrite IH.
Qed.

(** X13: whether it returns or throws, a static emitter keeps every entry of
    the file system that is not a file it writes itself: directories, and
    the other files, also those that lie in the directories it ensures. *)
Theorem static_emitter_keeps_other_entries (o : operation) (root : path) (s : state)
    (p : path) (n : node) :
  o ∈ static_emitters →
  files s !! p = Some n →
  (∀ c, Write p c ∉ static_steps o root) →
  files (run_operation o root s).2 !! p = Some n.
Proof.
  intros Ho Hp Hsteps.
  assert (o ≠ PackageJson) as Hstatic.
  { intros ->. revert Ho. unfold static_emitters.
    rewrite !elem_of_cons, elem_of_nil. intros ?. destruct_or!; done. }
  rewrite run_operation_static by done.
  by apply run_all_perform_keeps_entry.
Qed.

Lemma static_emitter_keeps_other_entries_witness :
  let s := State {[ [] := Dir; ["app"] := Dir; ["src"; "app"] := Dir;
                    ["components"; "src"; "app"] := Dir;
                    ["Button.tsx"; "components"; "src"; "app"] := File (Text "mine") ]} [] in
  files (run_operation SrcStructure ["app"] s).2
    !! ["Button.tsx"; "components"; "src"; "app"] = Some (File (Text "mine")).
Proof.
  intros s. apply (static_emitter_keeps_other_entries SrcStructure ["app"] s).
  - do 5 apply list_elem_of_further. apply list_elem_of_here.
  - reflexivity.
  - intros c. cbn [static_steps join rev app]. rewrite !elem_of_cons, elem_of_nil.
    intros H. repeat (destruct H as [H|H]; [discriminate H|]). exact H.
Defined.

(** X14: a static emitter logs nothing, whether it returns or throws. *)
Theorem static_emitter_logs_nothing (o : operation) (root : path) (s : state) :
  o ∈ static_emitters →
  log (run_operation o root s).2 = log s.
Proof.
  intros Ho.
  assert (o ≠ PackageJson) as Hstatic.
  { intros ->. revert Ho. unfold static_emitters.
    rewrite !elem_of_cons, elem_of_nil. intros ?. destruct_or!; done. }
  rewrite run_operation_static by done. apply run_all_perform_log.
Qed.

Lemma static_emitter_logs_nothing_witness :
  log (run_operation SrcStructure ["app"] (State ∅ [(Info, "before")])).2 =
    [(Info, "before")].
Proof.
  apply (static_emitter_logs_nothing SrcStructure ["app"] (State ∅ [(Info, "before")])).
  do 5 apply list_elem_of_further. apply list_elem_of_here.
Defined.

(** * Further properties of the directory structure *)

Lemma mkdirs_no_file_in_the_way (p : path) (fs : gmap path node) :
  (∀ q c, q `suffix_of` p → fs !! q ≠ Some (File c)) →
  ∃ fs', mkdirs p fs = inr fs'.
Proof.
  induction p as [|x parent IH]; intros Hfiles.
  - pose proof (Hfiles [] ) as Hp. cbn [mkdirs].
    destruct (fs !! []) as [[|c]|]; [by eexists|by destruct (Hp c)|by eexists].
  - pose proof (Hfiles (x :: parent)) as Hp. cbn [mkdirs].
    destruct (fs !! (x :: parent)) as [[|c]|]; [by eexists|by destruct (Hp c)|].
    destruct IH as [fs1 ->]; [|by eexists].
    intros q c Hq. apply Hfiles. by apply suffix_cons_r.
Qed.

Lemma below_not_suffix (root rel : path) : rel ≠ [] → ¬ (rel ++ root) `suffix_of` root.
Proof.
  intros Hrel Hsuffix%suffix_length. rewrite length_app in Hsuffix.
  destruct rel; [done|]. simpl in Hsuffix. lia.
Qed.

Lemma mkdirs_below_made_root (root rel : path) (fs fsr : gmap path node) :
  mkdirs root fs = inr fsr →
  (∀ rel', rel' ≠ [] → fs !! (rel' ++ root) = None) →
  mkdirs (rel ++ root) fs = mkdirs (rel ++ root) fsr.
Proof.
  intros Hroot Hbelow. induction rel as [|x rel IH].
  - cbn [app]. rewrite Hroot. symmetry. by apply mkdirs_fixed, (mkdirs_dir _ fs).
  - assert (fsr !! (x :: rel ++ root) = None) as Hnone.
    { destruct (mkdirs_lookup _ _ _ (x :: rel ++ root) Hroot) as [->|(_ & _ & Hs)].
      - by apply (Hbelow (x :: rel)).
      - by apply (below_not_suffix root (x :: rel)) in Hs. }
    pose proof (Hbelow (x :: rel) ltac:(done)) as Hfs. cbn [app] in Hfs.
    cbn [app mkdirs]. by rewrite Hnone, Hfs, IH.
Qed.

Lemma run_all_ensureDir_first (p : path) rest s fsr :
  mkdirs p (files s) = mkdirs p fsr →
  (run_all (ensureDir p :: rest) (State fsr (log s))).1 = inr () →
  run_all (ensureDir p :: rest) s = run_all (ensureDir p :: rest) (State fsr (log s)).
Proof.
  intros Hsame. rewrite !run_all_cons. unfold ensureDir. cbn [files log].
  rewrite Hsame. by destruct (mkdirs p fsr).
Qed.

(** X12: [createUniversalSrcStructure] can be the first operation on a root
    that is not there yet: when no regular file lies on the way to the root
    and nothing is below it, the operation returns, the root is a directory,
    and the five directories and the three example files below it are as in
    the expected tree. *)
Theorem src_structure_makes_missing_root (root : path) (s : state) :
  (∀ q c, q `suffix_of` root → files s !! q ≠ Some (File c)) →
  (∀ rel, rel ≠ [] → files s !! (rel ++ root) = None) →
  ∃ s',
    createUniversalSrcStructure root s = (inr (), s')
    ∧ files s' !! root = Some Dir
    ∧ ∀ rel, rel ∈ creates SrcStructure →
        files s' !! (rel ++ root) = expected_tree !! rel
        ∧ is_Some (expected_tree !! rel).
Proof.
  intros Hway Hbelow.
  destruct (mkdirs_no_file_in_the_way root (files s) Hway) as [fsr Hroot].
  assert (∀ rel, rel ≠ [] → fsr !! (rel ++ root) = None) as Hbelow_r.
  { intros rel Hrel.
    destruct (mkdirs_lookup _ _ _ (rel ++ root) Hroot) as [->|(_ & _ & Hs)];
      [by apply Hbelow|by apply below_not_suffix in Hs]. }
  assert (scaffolding root fsr fsr) as Hsr.
  { split; [by apply (mkdirs_dir _ (files s))| |..|done].
    - intros rel Hrel. left. by apply Hbelow_r.
    - intros x rel [n Hn]. pose proof (Hbelow_r (x :: rel) ltac:(done)) as He.
      cbn [app] in He. congruence. }
  destruct (createUniversalSrcStructure_step root fsr (State fsr (log s)) Hsr)
    as (s' & Hrun & Hs' & _ & Hcreated).
  exists s'. split_and!; [|apply Hs'|].
  - rewrite <-Hrun.
    change (createUniversalSrcStructure root) with (run_operation SrcStructure root).
    rewrite !run_operation_static by done.
    cbn [static_steps fmap list_fmap perform join rev app].
    apply run_all_ensureDir_first.
    + apply (mkdirs_below_made_root root ["components"; "src"]); done.
    + change (createUniversalSrcStructure root) with (run_operation SrcStructure root)
        in Hrun.
      rewrite run_operation_static in Hrun by done.
      cbn [static_steps fmap list_fmap perform join rev app] in Hrun.
      by rewrite Hrun.
  - intros rel Hrel. rewrite Forall_forall in Hcreated.
    destruct (Hcreated rel Hrel) as [n Hn].
    assert (rel ≠ []) as Hne.
    { intros ->. revert Hrel. cbn [creates join rev app].
      rewrite !elem_of_cons, elem_of_nil. intros ?. destruct_or!; done. }
    destruct (scaffolding_inside _ _ _ Hs' rel Hne) as [Hl|Hl]; [congruence|].
    split; [done|]. rewrite <-Hl. by eexists.
Qed.

Lemma src_structure_makes_missing_root_witness :
  ∃ s',
    createUniversalSrcStructure ["app"; "work"] (State ∅ []) = (inr (), s')
    ∧ files s' !! ["app"; "work"] = Some Dir
    ∧ ∀ rel, rel ∈ creates SrcStructure →
        files s' !! (rel ++ ["app"; "work"]) = expected_tree !! rel
        ∧ is_Some (expected_tree !! rel).
Proof.
  apply (src_structure_makes_missing_root ["app"; "work"] (State ∅ [])).
  - intros q c _. cbn [files]. by rewrite lookup_empty.
  - intros rel _. apply lookup_empty.
Defined.

Lemma mkdirs_in_directory (x : string) (parent : path) (fs : gmap path node) :
  fs !! (x :: parent) = None → fs !! parent = Some Dir →
  mkdirs (x :: parent) fs = inr (<[x :: parent := Dir]> fs).
Proof.
  intros Hnone Hdir. change (mkdirs (x :: parent) fs) with
    (match fs !! (x :: parent) with
     | Some Dir => inr fs
     | Some (File _) => inl EEXIST
     | None => match mkdirs parent fs with
               | inr fs' => inr (<[x :: parent := Dir]> fs')
               | inl _ => inl ENOTDIR
               end
     end).
  by rewrite Hnone, mkdirs_fixed.
Qed.

Lemma mkdirs_file_there (p : path) (fs : gmap path node) c :
  fs !! p = Some (File c) → mkdirs p fs = inl EEXIST.
Proof. intros H. destruct p; simpl; by rewrite H. Qed.

(** X16: [createUniversalSrcStructure] does not undo what it did when a
    later step throws: with [src] a directory and a regular file in the place
    of [src/pages], it throws [EEXIST] after it has made [src/components],
    and writes none of its files. *)
Theorem src_structure_stops_midway (root : path) (s : state) (c : content) :
  files s !! join root ["src"] = Some Dir →
  files s !! join root ["src"; "components"] = None →
  files s !! join root ["src"; "pages"] = Some (File c) →
  createUniversalSrcStructure root s =
    (inl EEXIST,
     State (<[join root ["src"; "components"] := Dir]> (files s)) (log s)).
Proof.
  cbn [join rev app]. intros Hsrc Hcomponents Hpages.
  change (createUniversalSrcStructure root) with (run_operation SrcStructure root).
  rewrite run_operation_static by done.
  cbn [static_steps fmap list_fmap perform join rev app]. rewrite run_all_cons.
  unfold ensureDir at 1. rewrite mkdirs_in_directory by done.
  rewrite run_all_cons. unfold ensureDir at 1. cbn [files log].
  rewrite (mkdirs_file_there _ _ c); [done|].
  by rewrite lookup_insert_ne.
Qed.

Lemma src_structure_stops_midway_witness :
  let s := State {[ [] := Dir; ["app"] := Dir; ["src"; "app"] := Dir;
                    ["pages"; "src"; "app"] := File (Text "notes") ]} [] in
  createUniversalSrcStructure ["app"] s =
    (inl EEXIST, State (<[ ["components"; "src"; "app"] := Dir]> (files s)) []).
Proof.
  intros s. apply (src_structure_stops_midway ["app"] s (Text "notes")); reflexivity.
Defined.

(** * Running the operations again on what they left *)

Lemma is_operation (o : operation) : o ∈ operations.
Proof. unfold operations. destruct o; rewrite !elem_of_cons; tauto. Qed.

(** X15: once the nine operations have run on an empty root, any further
    operations of the module, in any number and order, return and leave
    every file and directory as it is. *)
Theorem rescaffolding_changes_no_file (ops again : list operation) (root : path)
    (s s' : state) :
  ops ≡ₚ operations →
  files s !! root = Some Dir →
  (∀ rel, rel ≠ [] → files s !! (rel ++ root) = None) →
  run_all ((λ o, run_operation o root) <$> ops) s = (inr (), s') →
  ∃ s'',
    run_all ((λ o, run_operation o root) <$> again) s' = (inr (), s'')
    ∧ files s'' = files s'.
Proof.
  intros Hops Hroot Hempty Hrun.
  assert (scaffolding root (files s) (files s)) as Hs.
  { split; [done| |..|done].
    - intros rel Hrel. left. by apply Hempty.
    - intros x rel [n Hn]. pose proof (Hempty (x :: rel) ltac:(done)) as He.
      cbn [app] in He. congruence. }
  destruct (operations_step root (files s) ops s Hs) as (s1 & Hrun1 & Hs' & _ & Hall).
  rewrite Hrun in Hrun1. injection Hrun1 as <-.
  destruct (operations_step root (files s) again s' Hs') as (s'' & Hagain & Hs'' & Hsub & _).
  exists s''. split; [done|]. apply map_eq. intros p.
  destruct (files s' !! p) as [n|] eqn:Hp; [by apply (lookup_weaken _ _ _ _ Hp)|].
  destruct (decide (root `suffix_of` p)) as [[rel ->]|Hout].
  - destruct (decide (rel = [])) as [->|Hrel].
    { cbn [app] in Hp. by rewrite (scaffolding_root _ _ _ Hs') in Hp. }
    destruct (scaffolding_inside _ _ _ Hs'' rel Hrel) as [Hl|Hl]; [done|].
    rewrite Hl. destruct (expected_tree !! rel) as [n|] eqn:Hn; [|done].
    destruct (expected_created rel) as [o Ho]; [by rewrite Hn|].
    assert (o ∈ ops) as Hin by (rewrite Hops; apply is_operation).
    destruct (Hall o rel Hin Ho) as [n' Hn']. congruence.
  - rewrite (scaffolding_outside _ _ _ Hs'' p Hout).
    by rewrite <-(scaffolding_outside _ _ _ Hs' p Hout).
Qed.

Lemma rescaffolding_changes_no_file_witness :
  let s := State {[ [] := Dir; ["app"] := Dir ]} [] in
  let s' := (run_all ((λ o, run_operation o ["app"]) <$> operations) s).2 in
  ∃ s'',
    run_all ((λ o, run_operation o ["app"]) <$> [Readme; PackageJson; SrcStructure]) s'
      = (inr (), s'')
    ∧ files s'' = files s'.
Proof.
  intros s s'.
  apply (rescaffolding_changes_no_file operations [Readme; PackageJson; SrcStructure]
           ["app"] s s').
  - reflexivity.
  - reflexivity.
  - intros rel Hrel. subst s. cbn [files].
    rewrite lookup_insert_ne by (intros H; by destruct rel).
    apply lookup_singleton_ne. intros H. apply (f_equal length) in H.
    rewrite length_app in H. destruct rel; simpl in H; [done|lia].
  - vm_compute. reflexivity.
Defined.

(** * When the merge returns *)

Lemma write_returns (p : path) c s :
  (write p c s).1 = inr () ↔ files s !! p ≠ Some Dir ∧ files s !! tail p = Some Dir.
Proof.
  unfold write.
  destruct (files s !! p) as [[|?]|]; [split; [done|by intros [? _]]|..];
    destruct (files s !! tail p) as [[|?]|];
    (split; [intros ?; by (try split)|by intros [? ?]]).
Qed.

(** X17: the merge returns exactly when the root is a directory and the path
    of the manifest holds neither a directory nor the document [null]; in
    every other state it throws. *)
Theorem merge_returns_iff (root : path) (s : state) :
  (createUniversalPackageJson root s).1 = inr ()
  ↔ files s !! root = Some Dir
    ∧ files s !! join root ["package.json"] ≠ Some Dir
    ∧ files s !! join root ["package.json"] ≠ Some (File (Doc JNull)).
Proof.
  rewrite createUniversalPackageJson_cases. cbn zeta.
  destruct (files s !! join root ["package.json"]) as [[|[d|text]]|] eqn:Hp;
    [|destruct (starterPkg d) as [e|out] eqn:Hd|..];
    unfold writeJSON; rewrite ?write_returns; cbn [files join rev app tail fst];
    cbn [join rev app] in Hp; rewrite ?Hp.
  all: try (apply starterPkg_throws in Hd as [-> _]).
  all: try (assert (d ≠ JNull) by (by intros ->)).
  all: cbn [fst]; intuition congruence.
Qed.
